(** * IT helpdesk service: the ticket lifecycle handlers of
      [srv/helpdesk-service.js] over the entities of [db/schema.cds].

    The service is a set of request handlers around a persistent store.
    Each handler is embedded as a function from the store (and the
    request's environment: clock, persistence layer) to a result and the
    store after the request.

    Conventions of the embedding:
    - a JavaScript string is a [string]; each [ascii] stands for one code
      unit, so [String.length] is the [.length] of the source for strings
      of code units below 256;
    - [null] and [undefined] are [None];
    - an instant (a [Date], a [Timestamp] column) is a [Z], the
      milliseconds since the epoch;
    - the [Tickets], [Agents] and [Categories] tables are finite maps from
      the primary key [ID]; [Comments] and [AuditLogs] are lists in
      insertion order (their generated keys are read by no handler). *)

From Stdlib Require Import ZArith NArith String Ascii List Lia.
From Stdlib Require Import DecimalString DecimalN DecimalZ.
From stdpp Require Import base option list sorting gmap strings fin_maps.

Local Open Scope string_scope.

(** ** JavaScript strings *)

Module JS.

(** [WhiteSpace] and [LineTerminator] code units below 256: TAB, LF, VT,
    FF, CR, SP and NBSP. *)
Definition is_space (a : ascii) : bool :=
  let n := N_of_ascii a in
  ((9 <=? n) && (n <=? 13) || (n =? 32) || (n =? 160))%N.

Fixpoint trimStart (s : string) : string :=
  match s with
  | String a r => if is_space a then trimStart r else s
  | EmptyString => EmptyString
  end.

(** [trimEnd] keeps a character when it is not white space or when
    something is left after it. *)
Fixpoint trimEnd (s : string) : string :=
  match s with
  | String a r =>
      match trimEnd r with
      | EmptyString => if is_space a then EmptyString else String a EmptyString
      | r' => String a r'
      end
  | EmptyString => EmptyString
  end.

(** [String.prototype.trim] *)
Definition trim (s : string) : string := trimEnd (trimStart s).

(** [String.prototype.toLowerCase] on the letters A-Z. *)
Definition lower (a : ascii) : ascii :=
  let n := N_of_ascii a in
  if ((65 <=? n) && (n <=? 90))%N then ascii_of_N (n + 32) else a.

Fixpoint toLowerCase (s : string) : string :=
  match s with
  | String a r => String (lower a) (toLowerCase r)
  | EmptyString => EmptyString
  end.

Fixpoint replicate_char (n : nat) (c : ascii) : string :=
  match n with
  | O => EmptyString
  | S n' => String c (replicate_char n' c)
  end.

(** [s.padStart(targetLength, c)] for a one-character filler [c]. *)
Definition padStart (targetLength : nat) (c : ascii) (s : string) : string :=
  replicate_char (targetLength - String.length s) c +:+ s.

(** [String(n)] for a non-negative integer, and for an integer. *)
Definition String_of_N (n : N) : string := NilZero.string_of_uint (N.to_uint n).
Definition String_of_Z (z : Z) : string := NilZero.string_of_int (Z.to_int z).

(** Reading a string of decimal digits back (leading zeros allowed). *)
Definition N_of_digits (s : string) : option N :=
  N.of_uint <$> NilZero.uint_of_string s.

(** [x || d] on a possibly absent string: the empty string is falsy. *)
Definition or_else (x : option string) (d : string) : string :=
  match x with
  | Some s => if String.eqb s "" then d else s
  | None => d
  end.

(** Truthiness of a possibly absent string. *)
Definition truthy (x : option string) : bool :=
  match x with
  | Some s => negb (String.eqb s "")
  | None => false
  end.

(** [`${x}`] of a possibly absent string. *)
Definition interpolate (x : option string) : string :=
  match x with
  | Some s => s
  | None => "null"
  end.

(** [!x || x.trim().length < n] *)
Definition too_short (n : nat) (x : option string) : bool :=
  match x with
  | Some s => String.eqb s "" || (String.length (trim s) <? n)%nat
  | None => true
  end.

End JS.

(** ** Entities ([db/schema.cds]) *)

(** An instant in milliseconds since the epoch. *)
Definition Timestamp := Z.

(** [entity Tickets : cuid, managed]. [status] and [priority] are string
    columns: the [enum] of the schema names constants and restricts
    nothing, so any string can be stored. Every write of [status] in the
    service is a string literal; a [NULL] status is not modelled. Of the
    [managed] fields only [createdAt] is read by a handler. *)
Record Ticket := {
  ID : string;
  ticketNumber : option string;
  title : option string;
  description : option string;
  status : string;
  priority : option string;
  category_ID : option string;
  department_ID : option string;
  reporter_ID : option string;
  assignedTo_ID : option string;
  resolvedAt : option Timestamp;
  closedAt : option Timestamp;
  dueDate : option Timestamp;
  resolutionNote : option string;
  isOverdue : option bool;
  createdAt : Timestamp
}.

Definition set_status (v : string) (t : Ticket) : Ticket :=
  {| ID := ID t; ticketNumber := ticketNumber t; title := title t;
     description := description t; status := v; priority := priority t;
     category_ID := category_ID t; department_ID := department_ID t;
     reporter_ID := reporter_ID t; assignedTo_ID := assignedTo_ID t;
     resolvedAt := resolvedAt t; closedAt := closedAt t; dueDate := dueDate t;
     resolutionNote := resolutionNote t; isOverdue := isOverdue t;
     createdAt := createdAt t |}.

Definition set_priority (v : option string) (t : Ticket) : Ticket :=
  {| ID := ID t; ticketNumber := ticketNumber t; title := title t;
     description := description t; status := status t; priority := v;
     category_ID := category_ID t; department_ID := department_ID t;
     reporter_ID := reporter_ID t; assignedTo_ID := assignedTo_ID t;
     resolvedAt := resolvedAt t; closedAt := closedAt t; dueDate := dueDate t;
     resolutionNote := resolutionNote t; isOverdue := isOverdue t;
     createdAt := createdAt t |}.

Definition set_assignedTo_ID (v : option string) (t : Ticket) : Ticket :=
  {| ID := ID t; ticketNumber := ticketNumber t; title := title t;
     description := description t; status := status t; priority := priority t;
     category_ID := category_ID t; department_ID := department_ID t;
     reporter_ID := reporter_ID t; assignedTo_ID := v;
     resolvedAt := resolvedAt t; closedAt := closedAt t; dueDate := dueDate t;
     resolutionNote := resolutionNote t; isOverdue := isOverdue t;
     createdAt := createdAt t |}.

Definition set_resolvedAt (v : option Timestamp) (t : Ticket) : Ticket :=
  {| ID := ID t; ticketNumber := ticketNumber t; title := title t;
     description := description t; status := status t; priority := priority t;
     category_ID := category_ID t; department_ID := department_ID t;
     reporter_ID := reporter_ID t; assignedTo_ID := assignedTo_ID t;
     resolvedAt := v; closedAt := closedAt t; dueDate := dueDate t;
     resolutionNote := resolutionNote t; isOverdue := isOverdue t;
     createdAt := createdAt t |}.

Definition set_closedAt (v : option Timestamp) (t : Ticket) : Ticket :=
  {| ID := ID t; ticketNumber := ticketNumber t; title := title t;
     description := description t; status := status t; priority := priority t;
     category_ID := category_ID t; department_ID := department_ID t;
     reporter_ID := reporter_ID t; assignedTo_ID := assignedTo_ID t;
     resolvedAt := resolvedAt t; closedAt := v; dueDate := dueDate t;
     resolutionNote := resolutionNote t; isOverdue := isOverdue t;
     createdAt := createdAt t |}.

Definition set_resolutionNote (v : option string) (t : Ticket) : Ticket :=
  {| ID := ID t; ticketNumber := ticketNumber t; title := title t;
     description := description t; status := status t; priority := priority t;
     category_ID := category_ID t; department_ID := department_ID t;
     reporter_ID := reporter_ID t; assignedTo_ID := assignedTo_ID t;
     resolvedAt := resolvedAt t; closedAt := closedAt t; dueDate := dueDate t;
     resolutionNote := v; isOverdue := isOverdue t;
     createdAt := createdAt t |}.

(** [entity Agents]: the fields [assignAgent] reads. *)
Module Agent.
Record t := { name : string; isActive : bool }.
End Agent.

(** [entity Categories]: the field the create hook reads. *)
Module Category.
Record t := { slaHours : option Z }.
End Category.

(** [entity Comments], as the handlers insert it. *)
Module Comment.
Record t := {
  ticket_ID : string;
  content : string;
  isInternal : bool;
  authorName : string;
  authorEmail : string
}.
End Comment.

(** [entity AuditLogs], as [_logAudit] inserts it. *)
Module AuditLog.
Record t := {
  ticket_ID : string;
  action : string;
  oldValue : option string;
  newValue : option string;
  performedBy : string;
  performedAt : Timestamp
}.
End AuditLog.

(** The persistent store. *)
Record Store := {
  Tickets : gmap string Ticket;
  Agents : gmap string Agent.t;
  Categories : gmap string Category.t;
  Comments : list Comment.t;
  AuditLogs : list AuditLog.t
}.

Definition with_Tickets (m : gmap string Ticket) (s : Store) : Store :=
  {| Tickets := m; Agents := Agents s; Categories := Categories s;
     Comments := Comments s; AuditLogs := AuditLogs s |}.

(** [UPDATE(Tickets).set(...).where({ ID })]: the row with that key, if
    any, is rewritten. *)
Definition UPDATE_Tickets (id : string) (set : Ticket -> Ticket) (s : Store) : Store :=
  with_Tickets (alter set id (Tickets s)) s.

(** [INSERT.into(Comments).entries(c)] *)
Definition INSERT_Comments (c : Comment.t) (s : Store) : Store :=
  {| Tickets := Tickets s; Agents := Agents s; Categories := Categories s;
     Comments := Comments s ++ [c]; AuditLogs := AuditLogs s |}.

(** [INSERT.into(AuditLogs).entries(e)] *)
Definition INSERT_AuditLogs (e : AuditLog.t) (s : Store) : Store :=
  {| Tickets := Tickets s; Agents := Agents s; Categories := Categories s;
     Comments := Comments s; AuditLogs := AuditLogs s ++ [e] |}.

(** ** Requests *)

(** What a request sees of the world outside the store. The clock is read
    by the handler and, after its writes, once more by [_logAudit]. *)
Record Env := {
  (** [new Date().getFullYear()] *)
  env_year : Z;
  (** [new Date()] in the handler *)
  env_now : Timestamp;
  (** [new Date()] in [_logAudit] *)
  env_logNow : Timestamp;
  (** the instant of [due] after [due.setHours(due.getHours() + h)] *)
  env_plusHours : Z -> Timestamp;
  (** what the persistence layer does when [UPDATE] is handed, for a
      string column, a member inherited from [Object.prototype] (a
      function or an object) instead of a string: [None] when it refuses
      the statement, [Some v] when it stores [v]. *)
  env_bind : string -> option (option string)
}.

(** [req.error(code, message)] *)
Record error := { code : Z; message : string }.

Definition ValidationError (e : error) : Prop := code e = 400%Z.
Definition NotFoundError (e : error) : Prop := code e = 404%Z.
Definition ConflictError (e : error) : Prop := code e = 409%Z.

(** The outcome of a request: a value, the errors registered with
    [req.error], or a failure raised below the handlers (by the
    persistence layer). *)
Inductive result (A : Type) : Type :=
  | Ok (a : A)
  | Rejected (errs : list error)
  | Failed.
Arguments Ok {A} a.
Arguments Rejected {A} errs.
Arguments Failed {A}.

Definition req_error {A} (c : Z) (m : string) : result A :=
  Rejected [ {| code := c; message := m |} ].

(** ** Private helpers *)

(** [_logAudit(ticketID, action, oldValue, newValue, performedBy)] *)
Definition _logAudit (env : Env) (ticketID action : string)
    (oldValue newValue performedBy : option string) (s : Store) : Store :=
  INSERT_AuditLogs
    {| AuditLog.ticket_ID := ticketID;
       AuditLog.action := action;
       AuditLog.oldValue := if JS.truthy oldValue then oldValue else None;
       AuditLog.newValue := if JS.truthy newValue then newValue else None;
       AuditLog.performedBy := JS.or_else performedBy "System";
       AuditLog.performedAt := env_logNow env |} s.

(** A value read out of the object literal [levels]: one of its own
    string values, or a member it inherits from [Object.prototype]. *)
Inductive jsval :=
  | JStr (s : string)
  | JInherited (name : string).

(** The own properties of the literal in [_escalatePriority]. *)
Definition levels : gmap string string :=
  <["LOW" := "MEDIUM"]> (<["MEDIUM" := "HIGH"]> (<["HIGH" := "CRITICAL"]>
    (<["CRITICAL" := "CRITICAL"]> ∅))).

(** The property names every object literal inherits. *)
Definition Object_prototype : list string :=
  [ "constructor"; "__defineGetter__"; "__defineSetter__"; "hasOwnProperty";
    "__lookupGetter__"; "__lookupSetter__"; "isPrototypeOf";
    "propertyIsEnumerable"; "toString"; "valueOf"; "__proto__";
    "toLocaleString" ].

(** [o[k]]: own properties first, then the prototype. *)
Definition get (o : gmap string string) (k : string) : option jsval :=
  match o !! k with
  | Some v => Some (JStr v)
  | None => if decide (k ∈ Object_prototype) then Some (JInherited k) else None
  end.

(** [_escalatePriority(current)]: [levels[current] || 'HIGH']. The key is
    [String(current)]; functions and objects are truthy. *)
Definition _escalatePriority (current : option string) : jsval :=
  match get levels (JS.interpolate current) with
  | Some (JStr v) => if String.eqb v "" then JStr "HIGH" else JStr v
  | Some (JInherited k) => JInherited k
  | None => JStr "HIGH"
  end.

(** [`${v}`] of such a value. *)
Definition display (v : jsval) : string :=
  match v with
  | JStr s => s
  | JInherited k =>
      if String.eqb k "__proto__" then "[object Object]"
      else if String.eqb k "constructor" then "function Object() { [native code] }"
      else "function " +:+ k +:+ "() { [native code] }"
  end.

(** ** Hooks on the generic create and update of [Tickets] *)

(** [req.data] of a create request. [ID] is the key as the framework
    completes it ([cuid]). For the two columns with a schema default the
    outer [None] is a field the request does not carry. *)
Record CreateData := {
  d_ID : string;
  d_ticketNumber : option string;
  d_title : option string;
  d_description : option string;
  d_status : option string;
  d_priority : option (option string);
  d_category_ID : option string;
  d_department_ID : option string;
  d_reporter_ID : option string;
  d_assignedTo_ID : option string;
  d_resolvedAt : option Timestamp;
  d_closedAt : option Timestamp;
  d_dueDate : option Timestamp;
  d_resolutionNote : option string;
  d_isOverdue : option (option bool)
}.

(** The sequence part of a ticket number: [String(total + 1).padStart(5, '0')]
    for [total] rows in [Tickets]. *)
Definition next_seq (s : Store) : string :=
  JS.padStart 5 "0"%char (JS.String_of_N (N.of_nat (size (Tickets s)) + 1)).

(** First [before('CREATE', 'Tickets')] hook: the ticket number. *)
Definition new_ticketNumber (env : Env) (s : Store) : string :=
  "TKT-" +:+ JS.String_of_Z (env_year env) +:+ "-" +:+ next_seq s.

(** First hook, continued: the due date from the category's SLA. A
    missing category, a missing [slaHours] and [slaHours = 0] leave the
    request's own value. *)
Definition new_dueDate (env : Env) (d : CreateData) (s : Store) : option Timestamp :=
  match d_category_ID d with
  | Some c =>
      if String.eqb c "" then d_dueDate d else
      match Categories s !! c with
      | Some category =>
          match Category.slaHours category with
          | Some h => if (h =? 0)%Z then d_dueDate d else Some (env_plusHours env h)
          | None => d_dueDate d
          end
      | None => d_dueDate d
      end
  | None => d_dueDate d
  end.

(** Second [before('CREATE', 'Tickets')] hook: the errors it registers. *)
Definition validate_create (d : CreateData) : list error :=
  (if JS.too_short 5 (d_title d)
   then [ {| code := 400; message := "Ticket title must be at least 5 characters long" |} ]
   else []) ++
  (if JS.too_short 10 (d_description d)
   then [ {| code := 400; message := "Ticket description must be at least 10 characters long" |} ]
   else []) ++
  (if JS.truthy (d_reporter_ID d) then []
   else [ {| code := 400; message := "Reporter is required to create a ticket" |} ]).

(** The row a create request inserts: [req.data] after the first hook,
    with the schema defaults. *)
Definition new_ticket (env : Env) (d : CreateData) (s : Store) : Ticket :=
  {| ID := d_ID d;
     ticketNumber := Some (new_ticketNumber env s);
     title := d_title d;
     description := d_description d;
     status := "OPEN";
     priority := default (Some "MEDIUM") (d_priority d);
     category_ID := d_category_ID d;
     department_ID := d_department_ID d;
     reporter_ID := d_reporter_ID d;
     assignedTo_ID := d_assignedTo_ID d;
     resolvedAt := d_resolvedAt d;
     closedAt := d_closedAt d;
     dueDate := new_dueDate env d s;
     resolutionNote := d_resolutionNote d;
     isOverdue := default (Some false) (d_isOverdue d);
     createdAt := env_now env |}.

(** [after('CREATE', 'Tickets')] hook. *)
Definition after_CREATE (env : Env) (ticket : Ticket) (s : Store) : Store :=
  _logAudit env (ID ticket) "Ticket Created" None (Some (status ticket))
    (Some "System") s.

(** A create request on [Tickets]: both before hooks, the generic insert
    (which the store refuses for a key already present), the after hook. *)
Definition create (env : Env) (d : CreateData) (s : Store)
    : result (option Ticket) * Store :=
  match validate_create d with
  | [] =>
      match Tickets s !! d_ID d with
      | Some _ => (Failed, s)
      | None =>
          let ticket := new_ticket env d s in
          let s1 := with_Tickets (<[d_ID d := ticket]> (Tickets s)) s in
          (Ok (Some ticket), after_CREATE env ticket s1)
      end
  | errs => (Rejected errs, s)
  end.

(** [before('UPDATE', 'Tickets')] hook: the errors it registers for the
    row with key [id]. *)
Definition before_UPDATE (id : string) (s : Store) : list error :=
  match Tickets s !! id with
  | Some ticket =>
      if decide (status ticket = "CLOSED")
      then [ {| code := 409;
                message := "Ticket " +:+ JS.interpolate (ticketNumber ticket)
                           +:+ " is closed and cannot be modified" |} ]
      else []
  | None => []
  end.

(** A generic update of [Tickets]: the hook, then the framework's own
    handler applying the payload [patch] to the row (not found: 404). *)
Definition update (id : string) (patch : Ticket -> Ticket) (s : Store)
    : result (option Ticket) * Store :=
  match before_UPDATE id s with
  | [] =>
      match Tickets s !! id with
      | Some _ =>
          let s1 := UPDATE_Tickets id patch s in
          (Ok (Tickets s1 !! id), s1)
      | None => (req_error 404 "Not Found", s)
      end
  | errs => (Rejected errs, s)
  end.

(** ** Actions *)

(** [SELECT.one.from(Agents).where({ ID: agentID, isActive: true })] *)
Definition active_agent (agentID : string) (s : Store) : option Agent.t :=
  match Agents s !! agentID with
  | Some a => if Agent.isActive a then Some a else None
  | None => None
  end.

Definition assignAgent (env : Env) (ticketID agentID : string)
    (remarks : option string) (s : Store) : result (option Ticket) * Store :=
  match Tickets s !! ticketID with
  | None => (req_error 404 ("Ticket not found: " +:+ ticketID), s)
  | Some ticket =>
      if decide (status ticket = "CLOSED")
      then (req_error 409 "Cannot assign agent to a closed ticket", s)
      else
      match active_agent agentID s with
      | None => (req_error 404 ("Active agent not found: " +:+ agentID), s)
      | Some agent =>
          let oldAgent := assignedTo_ID ticket in
          let s1 := UPDATE_Tickets ticketID
                      (fun t => set_status "IN_PROGRESS"
                                  (set_assignedTo_ID (Some agentID) t)) s in
          let s2 := _logAudit env ticketID "Agent Assigned"
                      (Some (if JS.truthy oldAgent
                             then "Agent: " +:+ JS.interpolate oldAgent
                             else "Unassigned"))
                      (Some ("Agent: " +:+ Agent.name agent))
                      (Some (JS.or_else remarks "System")) s1 in
          (Ok (Tickets s2 !! ticketID), s2)
      end
  end.

Definition validPriorities : list string := ["LOW"; "MEDIUM"; "HIGH"; "CRITICAL"].

(** [a.join(sep)] *)
Fixpoint join (sep : string) (a : list string) : string :=
  match a with
  | [] => ""
  | [x] => x
  | x :: r => x +:+ sep +:+ join sep r
  end.

(** [validPriorities.includes(priority)] *)
Definition valid_priority (priority : option string) : Prop :=
  match priority with
  | Some p => p ∈ validPriorities
  | None => False
  end.

#[export] Instance valid_priority_dec priority : Decision (valid_priority priority).
Proof. destruct priority; simpl; apply _. Defined.

Definition changePriority (env : Env) (ticketID : string)
    (priority' reason : option string) (s : Store) : result (option Ticket) * Store :=
  if decide (valid_priority priority') then
    match Tickets s !! ticketID with
    | None => (req_error 404 ("Ticket not found: " +:+ ticketID), s)
    | Some ticket =>
        let oldPriority := priority ticket in
        let s1 := UPDATE_Tickets ticketID (set_priority priority') s in
        let s2 := _logAudit env ticketID "Priority Changed" oldPriority priority'
                    (Some (JS.or_else reason "System")) s1 in
        (Ok (Tickets s2 !! ticketID), s2)
    end
  else (req_error 400 ("Invalid priority. Must be one of: "
                       +:+ join ", " validPriorities), s).

(** [['RESOLVED', 'CLOSED'].includes(ticket.status)] *)
Definition terminal (st : string) : Prop := st ∈ ["RESOLVED"; "CLOSED"].

#[export] Instance terminal_dec st : Decision (terminal st).
Proof. unfold terminal; apply _. Defined.

(** The literals of the system comments carry their symbol as its UTF-8
    bytes. *)
Definition resolveTicket (env : Env) (ticketID : string)
    (resolutionNote' agentName : option string) (s : Store)
    : result (option Ticket) * Store :=
  match Tickets s !! ticketID with
  | None => (req_error 404 ("Ticket not found: " +:+ ticketID), s)
  | Some ticket =>
      if decide (terminal (status ticket))
      then (req_error 409 ("Ticket is already " +:+ JS.toLowerCase (status ticket)), s)
      else if JS.too_short 10 resolutionNote'
      then (req_error 400 "Resolution note must be at least 10 characters long", s)
      else
        let resolvedAt' := env_now env in
        let s1 := UPDATE_Tickets ticketID
                    (fun t => set_resolutionNote resolutionNote'
                                (set_resolvedAt (Some resolvedAt')
                                   (set_status "RESOLVED" t))) s in
        let s2 := INSERT_Comments
                    {| Comment.ticket_ID := ticketID;
                       Comment.content := "✅ Ticket resolved. Note: "
                                          +:+ JS.interpolate resolutionNote';
                       Comment.isInternal := false;
                       Comment.authorName := JS.or_else agentName "Support Agent";
                       Comment.authorEmail := "" |} s1 in
        let s3 := _logAudit env ticketID "Ticket Resolved"
                    (Some (status ticket)) (Some "RESOLVED")
                    (Some (JS.or_else agentName "System")) s2 in
        (Ok (Tickets s3 !! ticketID), s3)
  end.

Definition closeTicket (env : Env) (ticketID : string)
    (agentName : option string) (s : Store) : result (option Ticket) * Store :=
  match Tickets s !! ticketID with
  | None => (req_error 404 ("Ticket not found: " +:+ ticketID), s)
  | Some ticket =>
      if decide (status ticket = "CLOSED")
      then (req_error 409 "Ticket is already closed", s)
      else if decide (status ticket ≠ "RESOLVED")
      then (req_error 409
              "Only resolved tickets can be closed. Please resolve the ticket first", s)
      else
        let closedAt' := env_now env in
        let s1 := UPDATE_Tickets ticketID
                    (fun t => set_closedAt (Some closedAt') (set_status "CLOSED" t)) s in
        let s2 := _logAudit env ticketID "Ticket Closed"
                    (Some "RESOLVED") (Some "CLOSED")
                    (Some (JS.or_else agentName "System")) s1 in
        (Ok (Tickets s2 !! ticketID), s2)
  end.

(** What [UPDATE] stores in the [priority] column for the value
    [_escalatePriority] returned; [None] when the statement is refused. *)
Definition bind_priority (env : Env) (v : jsval) : option (option string) :=
  match v with
  | JStr p => Some (Some p)
  | JInherited k => env_bind env k
  end.

Definition escalateTicket (env : Env) (ticketID : string)
    (reason agentName : option string) (s : Store) : result (option Ticket) * Store :=
  match Tickets s !! ticketID with
  | None => (req_error 404 ("Ticket not found: " +:+ ticketID), s)
  | Some ticket =>
      if decide (terminal (status ticket))
      then (req_error 409 "Cannot escalate a resolved or closed ticket", s)
      else
        let oldPriority := priority ticket in
        let newPriority := _escalatePriority oldPriority in
        match bind_priority env newPriority with
        | None => (Failed, s)
        | Some stored =>
            let s1 := UPDATE_Tickets ticketID
                        (fun t => set_status "IN_PROGRESS" (set_priority stored t)) s in
            let s2 := INSERT_Comments
                        {| Comment.ticket_ID := ticketID;
                           Comment.content := "⚠️ Ticket escalated. Reason: "
                                              +:+ JS.or_else reason "No reason provided";
                           Comment.isInternal := true;
                           Comment.authorName := JS.or_else agentName "System";
                           Comment.authorEmail := "" |} s1 in
            let s3 := _logAudit env ticketID "Ticket Escalated"
                        (Some ("Priority: " +:+ JS.interpolate oldPriority))
                        (Some ("Priority: " +:+ display newPriority))
                        (Some (JS.or_else agentName "System")) s2 in
            (Ok (Tickets s3 !! ticketID), s3)
        end
  end.

Definition reopenTicket (env : Env) (ticketID : string)
    (reason agentName : option string) (s : Store) : result (option Ticket) * Store :=
  match Tickets s !! ticketID with
  | None => (req_error 404 ("Ticket not found: " +:+ ticketID), s)
  | Some ticket =>
      if decide (¬ terminal (status ticket))
      then (req_error 409 "Only resolved or closed tickets can be reopened", s)
      else if JS.too_short 5 reason
      then (req_error 400 "A reason must be provided to reopen a ticket", s)
      else
        let s1 := UPDATE_Tickets ticketID
                    (fun t => set_resolutionNote None
                                (set_closedAt None
                                   (set_resolvedAt None (set_status "OPEN" t)))) s in
        let s2 := INSERT_Comments
                    {| Comment.ticket_ID := ticketID;
                       Comment.content := "🔄 Ticket reopened. Reason: "
                                          +:+ JS.interpolate reason;
                       Comment.isInternal := false;
                       Comment.authorName := JS.or_else agentName "System";
                       Comment.authorEmail := "" |} s1 in
        let s3 := _logAudit env ticketID "Ticket Reopened"
                    (Some (status ticket)) (Some "OPEN")
                    (Some (JS.or_else agentName "System")) s2 in
        (Ok (Tickets s3 !! ticketID), s3)
  end.

(** ** Functions *)

(** Comparison of a string column in [ORDER BY]: code unit by code unit,
    [NULL] before every string. *)
Definition sql_compare (a b : option string) : comparison :=
  match a, b with
  | None, None => Eq
  | None, Some _ => Lt
  | Some _, None => Gt
  | Some x, Some y => String.compare x y
  end.

(** [orderBy('priority desc, createdAt asc')]. Both sort terms are handed
    to [orderBy] in one string, not as one argument each, and the query
    layer does not sort by them as they read: the rows come back by the
    [priority] text ascending, [NULL] first, and in no fixed order among
    rows of equal priority. The row [t1] may stand before the row [t2]. *)
Definition order_by (t1 t2 : Ticket) : Prop :=
  sql_compare (priority t1) (priority t2) ≠ Gt.

#[export] Instance order_by_dec t1 t2 : Decision (order_by t1 t2).
Proof. unfold order_by; apply _. Defined.

(** [where({ assignedTo_ID: agentID, status: { '!=': 'CLOSED' } })] *)
Definition where_agent (agentID : string) (t : Ticket) : Prop :=
  assignedTo_ID t = Some agentID ∧ status t ≠ "CLOSED".

#[export] Instance where_agent_dec agentID t : Decision (where_agent agentID t).
Proof. unfold where_agent; apply _. Defined.

(** The rows of the table. *)
Definition rows (s : Store) : list Ticket := (map_to_list (Tickets s)).*2.

(** [getAgentTickets(agentID)]: a query; it returns rows and no store.
    Rows of equal priority come in an order the source does not fix. *)
Definition getAgentTickets (agentID : string) (s : Store) : list Ticket :=
  merge_sort order_by (filter (where_agent agentID) (rows s)).

(** ** Sequences of lifecycle requests *)

Inductive Op :=
  | Create (d : CreateData)
  | AssignAgent (ticketID agentID : string) (remarks : option string)
  | ChangePriority (ticketID : string) (priority' reason : option string)
  | ResolveTicket (ticketID : string) (resolutionNote' agentName : option string)
  | CloseTicket (ticketID : string) (agentName : option string)
  | EscalateTicket (ticketID : string) (reason agentName : option string)
  | ReopenTicket (ticketID : string) (reason agentName : option string).

(** The ticket a request is about. *)
Definition ticket_of (op : Op) : string :=
  match op with
  | Create d => d_ID d
  | AssignAgent i _ _ | ChangePriority i _ _ | ResolveTicket i _ _
  | CloseTicket i _ | EscalateTicket i _ _ | ReopenTicket i _ _ => i
  end.

Definition step (env : Env) (op : Op) (s : Store) : result (option Ticket) * Store :=
  match op with
  | Create d => create env d s
  | AssignAgent i a r => assignAgent env i a r s
  | ChangePriority i p r => changePriority env i p r s
  | ResolveTicket i n a => resolveTicket env i n a s
  | CloseTicket i a => closeTicket env i a s
  | EscalateTicket i r a => escalateTicket env i r a s
  | ReopenTicket i r a => reopenTicket env i r a s
  end.

(** Requests served one after the other, each with its own environment. *)
Fixpoint run (reqs : list (Env * Op)) (s : Store) : Store :=
  match reqs with
  | [] => s
  | (env, op) :: rest => run rest (step env op s).2
  end.

(** A store with no rows. *)
Definition empty_store : Store :=
  {| Tickets := ∅; Agents := ∅; Categories := ∅; Comments := []; AuditLogs := [] |}.

(** ** Predicates of the specification *)

(** A text of at least [n] characters after trimming is present. *)
Definition at_least (n : nat) (x : option string) : Prop :=
  ∃ r, x = Some r ∧ (n ≤ String.length (JS.trim r))%nat.



(** ** The priority order of the schema *)

(** Following the specification: the successor of a priority under
    LOW, MEDIUM, HIGH, CRITICAL, with CRITICAL as ceiling and HIGH for
    everything else. *)
Definition spec_next (p : option string) : string :=
  match p with
  | Some p =>
      if String.eqb p "LOW" then "MEDIUM"
      else if String.eqb p "MEDIUM" then "HIGH"
      else if String.eqb p "HIGH" then "CRITICAL"
      else if String.eqb p "CRITICAL" then "CRITICAL"
      else "HIGH"
  | None => "HIGH"
  end.

(** Following the specification: the rank of a priority in
    LOW < MEDIUM < HIGH < CRITICAL (0 for any other value). *)
Definition spec_rank (p : option string) : nat :=
  match p with
  | Some p =>
      if String.eqb p "LOW" then 1
      else if String.eqb p "MEDIUM" then 2
      else if String.eqb p "HIGH" then 3
      else if String.eqb p "CRITICAL" then 4
      else 0
  | None => 0
  end.

(** Following the specification: [t1] may stand before [t2] when the
    list is ordered by priority descending, then creation ascending. *)
Definition spec_order (t1 t2 : Ticket) : Prop :=
  (spec_rank (priority t2) < spec_rank (priority t1))%nat
  ∨ (spec_rank (priority t1) = spec_rank (priority t2)
     ∧ (createdAt t1 <= createdAt t2)%Z).

#[export] Instance spec_order_dec t1 t2 : Decision (spec_order t1 t2).
Proof. unfold spec_order; apply _. Defined.

(** Following the specification: a ticket number whose sequence counts
    the tickets of its own year only, a ticket belonging to the year its
    number names. *)
Definition year_prefix (year : Z) : string := "TKT-" +:+ JS.String_of_Z year +:+ "-".

Definition of_year (year : Z) (t : Ticket) : bool :=
  match ticketNumber t with
  | Some n => String.prefix (year_prefix year) n
  | None => false
  end.

Definition spec_ticketNumber (env : Env) (s : Store) : string :=
  year_prefix (env_year env)
  +:+ JS.padStart 5 "0"%char
        (JS.String_of_N
           (N.of_nat (length (filter (λ t, of_year (env_year env) t = true) (rows s))) + 1)).

(** ** Sample requests and stores *)

Module Sample.

Definition env_2023 : Env :=
  {| env_year := 2023%Z; env_now := 1690000000000%Z;
     env_logNow := 1690000000002%Z;
     env_plusHours := λ h, (1690000000000 + h * 3600000)%Z;
     env_bind := λ _, None |}.

Definition env_2024 : Env :=
  {| env_year := 2024%Z; env_now := 1710000000000%Z;
     env_logNow := 1710000000002%Z;
     env_plusHours := λ h, (1710000000000 + h * 3600000)%Z;
     env_bind := λ _, None |}.

Definition printer (id : string) (p : option (option string)) : CreateData :=
  {| d_ID := id; d_ticketNumber := None;
     d_title := Some "Printer not working";
     d_description := Some "The office printer on 3rd floor is jammed";
     d_status := None; d_priority := p; d_category_ID := Some "cat-0001";
     d_department_ID := None; d_reporter_ID := Some "emp-0001";
     d_assignedTo_ID := None; d_resolvedAt := None; d_closedAt := None;
     d_dueDate := None; d_resolutionNote := None; d_isOverdue := None |}.

(** One active agent and one category with a 24 hour SLA. *)
Definition base : Store :=
  {| Tickets := ∅;
     Agents := {[ "agt-0001" := {| Agent.name := "John Smith"; Agent.isActive := true |} ]};
     Categories := {[ "cat-0001" := {| Category.slaHours := Some 24%Z |} ]};
     Comments := []; AuditLogs := [] |}.

Definition create_1 : Op := Create (printer "tkt-0001" None).
Definition resolve_1 : Op :=
  ResolveTicket "tkt-0001" (Some "Replaced the toner cartridge") (Some "Mike Chen").
Definition close_1 : Op := CloseTicket "tkt-0001" (Some "Emma Wilson").

(** [tkt-0001] OPEN, then RESOLVED, then CLOSED. *)
Definition opened : Store := run [(env_2023, create_1)] base.
Definition resolved : Store := run [(env_2023, resolve_1)] opened.
Definition closed : Store := run [(env_2023, close_1)] resolved.

(** The rows of [tkt-0001] in these stores. *)
Definition row_opened : Ticket :=
  {| ID := "tkt-0001"; ticketNumber := Some "TKT-2023-00001";
     title := Some "Printer not working";
     description := Some "The office printer on 3rd floor is jammed";
     status := "OPEN"; priority := Some "MEDIUM";
     category_ID := Some "cat-0001"; department_ID := None;
     reporter_ID := Some "emp-0001"; assignedTo_ID := None;
     resolvedAt := None; closedAt := None;
     dueDate := Some 1690086400000%Z; resolutionNote := None;
     isOverdue := Some false; createdAt := 1690000000000%Z |}.

Definition row_resolved : Ticket :=
  set_resolutionNote (Some "Replaced the toner cartridge")
    (set_resolvedAt (Some 1690000000000%Z) (set_status "RESOLVED" row_opened)).

Definition row_closed : Ticket :=
  set_closedAt (Some 1690000000000%Z) (set_status "CLOSED" row_resolved).

(** An OPEN ticket whose priority is a string the four levels do not
    contain, stored through the generic create. *)
Definition odd : Store :=
  run [(env_2024, Create (printer "tkt-0002" (Some (Some "toString"))))] base.

(** Two tickets of agent [agt-0001]: the older MEDIUM, the newer LOW. *)
Definition queue : Store :=
  run [ (env_2023, Create (printer "tkt-0001" (Some (Some "MEDIUM"))));
        (env_2023, AssignAgent "tkt-0001" "agt-0001" None);
        (env_2024, Create (printer "tkt-0002" (Some (Some "LOW"))));
        (env_2024, AssignAgent "tkt-0002" "agt-0001" None) ] base.

End Sample.

(** ** Timestamps as text *)

(** The handlers store an instant as the text [toISOString()] gives for it
    ([due.toISOString()], [new Date().toISOString()]), and the queries
    compare that text. *)
Module ISO.

(** Year, month and day of a day counted from the epoch, in the proleptic
    Gregorian calendar. *)
Definition civil (days : Z) : Z * Z * Z :=
  let z := (days + 719468)%Z in
  let era := (z / 146097)%Z in
  let doe := (z mod 146097)%Z in
  let yoe := ((doe - doe / 1460 + doe / 36524 - doe / 146096) / 365)%Z in
  let doy := (doe - (365 * yoe + yoe / 4 - yoe / 100))%Z in
  let mp := ((5 * doy + 2) / 153)%Z in
  let d := (doy - (153 * mp + 2) / 5 + 1)%Z in
  let m := (if mp <? 10 then mp + 3 else mp - 9)%Z in
  let y := (yoe + era * 400 + (if m <=? 2 then 1 else 0))%Z in
  (y, m, d).

(** A non-negative number in at least [n] digits. *)
Definition digits (n : nat) (z : Z) : string :=
  JS.padStart n "0"%char (JS.String_of_N (Z.to_N z)).

(** Four digits for the years 0 to 9999, a sign and six digits for the
    others. *)
Definition year_text (y : Z) : string :=
  if ((0 <=? y) && (y <=? 9999))%Z then digits 4 y
  else (if (y <? 0)%Z then "-" else "+") +:+ digits 6 (Z.abs y).

(** [Date.prototype.toISOString] of the instant [t]. *)
Definition toISOString (t : Timestamp) : string :=
  let '(y, m, d) := civil (t / 86400000)%Z in
  let r := (t mod 86400000)%Z in
  year_text y +:+ "-" +:+ digits 2 m +:+ "-" +:+ digits 2 d +:+ "T"
  +:+ digits 2 (r / 3600000) +:+ ":" +:+ digits 2 (r mod 3600000 / 60000)
  +:+ ":" +:+ digits 2 (r mod 60000 / 1000) +:+ "." +:+ digits 3 (r mod 1000)
  +:+ "Z".

(** [a < b] on two stored timestamps. *)
Definition before (a b : Timestamp) : Prop :=
  String.compare (toISOString a) (toISOString b) = Lt.

#[global] Instance before_dec a b : Decision (before a b).
Proof. unfold before; apply _. Defined.

End ISO.

(** ** Reading tickets, overdue tickets and the dashboard *)

Definition set_isOverdue (v : option bool) (t : Ticket) : Ticket :=
  {| ID := ID t; ticketNumber := ticketNumber t; title := title t;
     description := description t; status := status t; priority := priority t;
     category_ID := category_ID t; department_ID := department_ID t;
     reporter_ID := reporter_ID t; assignedTo_ID := assignedTo_ID t;
     resolvedAt := resolvedAt t; closedAt := closedAt t; dueDate := dueDate t;
     resolutionNote := resolutionNote t; isOverdue := v;
     createdAt := createdAt t |}.

(** The due date has passed and the ticket is neither RESOLVED nor CLOSED:
    [ticket.dueDate && new Date(ticket.dueDate) < now
     && !['RESOLVED', 'CLOSED'].includes(ticket.status)] in the read hook,
    which compares instants. A ticket without due date never qualifies. *)
Definition past_due (now : Timestamp) (t : Ticket) : Prop :=
  match dueDate t with
  | Some due => (due < now)%Z ∧ ¬ terminal (status t)
  | None => False
  end.

#[export] Instance past_due_dec now t : Decision (past_due now t).
Proof. unfold past_due; destruct (dueDate t); apply _. Defined.

(** [after('READ', 'Tickets')] hook, on one ticket of the result: the
    flag is set, never cleared. *)
Definition flag_overdue (now : Timestamp) (ticket : Ticket) : Ticket :=
  if decide (past_due now ticket) then set_isOverdue (Some true) ticket else ticket.

(** The hook on a result that is an array. *)
Definition after_READ (env : Env) (tickets : list Ticket) : list Ticket :=
  flag_overdue (env_now env) <$> tickets.

(** [dueDate < '${now}' and status not in ('RESOLVED','CLOSED')] in the
    two queries, which compare the stored text with the text of [now]. A
    ticket without due date never qualifies. *)
Definition overdue (now : Timestamp) (t : Ticket) : Prop :=
  match dueDate t with
  | Some due => ISO.before due now ∧ ¬ terminal (status t)
  | None => False
  end.

#[export] Instance overdue_dec now t : Decision (overdue now t).
Proof. unfold overdue; destruct (dueDate t); apply _. Defined.

(** [orderBy('priority desc')]: the row [t1] may stand before [t2]. *)
Definition order_by_priority (t1 t2 : Ticket) : Prop :=
  sql_compare (priority t1) (priority t2) ≠ Lt.

#[export] Instance order_by_priority_dec t1 t2 : Decision (order_by_priority t1 t2).
Proof. unfold order_by_priority; apply _. Defined.

(** [getOverdueTickets()]. Rows with the same priority come in an order
    the source does not fix. *)
Definition getOverdueTickets (env : Env) (s : Store) : list Ticket :=
  merge_sort order_by_priority (filter (overdue (env_now env)) (rows s)).

(** The record [getDashboardStats()] returns. *)
Record DashboardStats := {
  totalTickets : nat;
  openTickets : nat;
  inProgressTickets : nat;
  resolvedToday : nat;
  overdueTickets : nat;
  criticalTickets : nat
}.

(** [status = 'RESOLVED' and resolvedAt >= '${todayStart}'], on the stored
    text. *)
Definition resolved_since (todayStart : Timestamp) (t : Ticket) : Prop :=
  status t = "RESOLVED"
  ∧ match resolvedAt t with
    | Some r => ¬ ISO.before r todayStart
    | None => False
    end.

#[export] Instance resolved_since_dec d t : Decision (resolved_since d t).
Proof. unfold resolved_since; destruct (resolvedAt t); apply _. Defined.

(** [{ priority: 'CRITICAL', status: { '!=': 'CLOSED' } }] *)
Definition critical_open (t : Ticket) : Prop :=
  priority t = Some "CRITICAL" ∧ status t ≠ "CLOSED".

#[export] Instance critical_open_dec t : Decision (critical_open t).
Proof. unfold critical_open; apply _. Defined.

(** [getDashboardStats()]. [todayStart] is the local midnight of the day
    of [now], [new Date(now.getFullYear(), now.getMonth(), now.getDate())]. *)
Definition getDashboardStats (env : Env) (todayStart : Timestamp) (s : Store)
    : DashboardStats :=
  {| totalTickets := length (rows s);
     openTickets := length (filter (λ t, status t = "OPEN") (rows s));
     inProgressTickets := length (filter (λ t, status t = "IN_PROGRESS") (rows s));
     resolvedToday := length (filter (resolved_since todayStart) (rows s));
     overdueTickets := length (filter (overdue (env_now env)) (rows s));
     criticalTickets := length (filter critical_open (rows s)) |}.

(** ** Predicates on stores and request sequences *)

(** The outcome of a request is a value. *)
Definition is_Ok {A} (r : result A) : bool :=
  match r with Ok _ => true | _ => false end.

(** The number of requests of a sequence that succeed, served one after
    the other from [s]. *)
Fixpoint successes (reqs : list (Env * Op)) (s : Store) : nat :=
  match reqs with
  | [] => 0
  | (env, op) :: rest =>
      (if is_Ok (step env op s).1 then 1 else 0) + successes rest (step env op s).2
  end.

(** Every row is stored under its own [ID]. *)
Definition keyed (s : Store) : Prop :=
  ∀ i t, Tickets s !! i = Some t → ID t = i.

(** Every comment and every audit record is about a ticket in the store. *)
Definition references_ok (s : Store) : Prop :=
  (∀ c, c ∈ Comments s → is_Some (Tickets s !! Comment.ticket_ID c))
  ∧ (∀ e, e ∈ AuditLogs s → is_Some (Tickets s !! AuditLog.ticket_ID e)).

(** An audit record holds no empty text: absent values are [NULL] and the
    performer is named. *)
Definition audit_filled (e : AuditLog.t) : Prop :=
  AuditLog.oldValue e ≠ Some "" ∧ AuditLog.newValue e ≠ Some ""
  ∧ AuditLog.performedBy e ≠ "".

(** A RESOLVED or CLOSED row carries a resolution note of at least 10
    characters. *)
Definition noted (t : Ticket) : Prop :=
  terminal (status t) → at_least 10 (resolutionNote t).

(** The fields of a row no lifecycle action writes. *)
Definition same_fixed (t t' : Ticket) : Prop :=
  ID t' = ID t ∧ ticketNumber t' = ticketNumber t ∧ title t' = title t
  ∧ description t' = description t ∧ category_ID t' = category_ID t
  ∧ department_ID t' = department_ID t ∧ reporter_ID t' = reporter_ID t
  ∧ dueDate t' = dueDate t ∧ createdAt t' = createdAt t.

(** The writes of a request that succeeds. *)
Definition writes (env : Env) (op : Op) (s s' : Store) : Prop :=
  Agents s' = Agents s ∧ Categories s' = Categories s
  ∧ (∃ e, AuditLogs s' = (AuditLogs s ++ [e])%list
          ∧ AuditLog.ticket_ID e = ticket_of op ∧ audit_filled e)
  ∧ (∃ cs, Comments s' = (Comments s ++ cs)%list ∧ (length cs ≤ 1)%nat
           ∧ ∀ c, c ∈ cs → Comment.ticket_ID c = ticket_of op)
  ∧ ((∃ d, op = Create d ∧ Tickets s !! d_ID d = None
           ∧ Tickets s' = <[d_ID d := new_ticket env d s]> (Tickets s))
     ∨ (∃ set, is_Some (Tickets s !! ticket_of op)
           ∧ Tickets s' = alter set (ticket_of op) (Tickets s)
           ∧ ∀ t, same_fixed t (set t))).

(** The statuses the handlers write. *)
Definition written_statuses : list string := ["OPEN"; "IN_PROGRESS"; "RESOLVED"; "CLOSED"].

(** The status of a row is one the handlers write, or the one the row of
    that key had in the store [s0]. *)
Definition status_origin (s0 : Store) (i : string) (t : Ticket) : Prop :=
  status t ∈ written_statuses
  ∨ ∃ t0, Tickets s0 !! i = Some t0 ∧ status t0 = status t.

(** What a create request must carry. *)
Definition creatable (d : CreateData) : Prop :=
  at_least 5 (d_title d) ∧ at_least 10 (d_description d)
  ∧ JS.truthy (d_reporter_ID d) = true.

(** A request that is one of the six actions, not a create. *)
Definition is_action (op : Op) : bool :=
  match op with Create _ => false | _ => true end.

(** * Properties *)

Local Open Scope list_scope.

(** ** The store after the elementary writes *)

Section StoreWrites.
Context (env : Env) (s : Store).

Lemma Tickets_UPDATE id set j :
  Tickets (UPDATE_Tickets id set s) !! j
  = if decide (id = j) then set <$> Tickets s !! id else Tickets s !! j.
Proof. simpl. rewrite lookup_alter. by case_decide; subst. Qed.

Lemma Tickets_UPDATE_eq id set t :
  Tickets s !! id = Some t →
  Tickets (UPDATE_Tickets id set s) !! id = Some (set t).
Proof. intros Ht. rewrite Tickets_UPDATE, decide_True by done. by rewrite Ht. Qed.

Lemma Tickets_UPDATE_ne id set j :
  id ≠ j → Tickets (UPDATE_Tickets id set s) !! j = Tickets s !! j.
Proof. intros Hne. by rewrite Tickets_UPDATE, decide_False. Qed.

Lemma Tickets_logAudit i a o n p :
  Tickets (_logAudit env i a o n p s) = Tickets s.
Proof. done. Qed.

Lemma Tickets_INSERT_Comments c : Tickets (INSERT_Comments c s) = Tickets s.
Proof. done. Qed.

Lemma AuditLogs_logAudit i a o n p :
  ∃ e, AuditLogs (_logAudit env i a o n p s) = AuditLogs s ++ [e]
       ∧ AuditLog.ticket_ID e = i.
Proof. eexists; split; [done|done]. Qed.
End StoreWrites.

(** Case analysis on the guards of a handler. *)
Ltac guards :=
  repeat (case_decide || case_match); simplify_eq/=; try done.

(** ** closeTicket *)

(** C2: on an existing ticket, closeTicket succeeds exactly when the status
    is RESOLVED; it then stores status CLOSED and closedAt = now and touches
    no other ticket. For every other status it answers one ConflictError
    and the whole store is as before. *)
Theorem closeTicket_iff_RESOLVED env ticketID agentName s t :
  Tickets s !! ticketID = Some t →
  (status t = "RESOLVED" →
     ∃ t' s', closeTicket env ticketID agentName s = (Ok (Some t'), s')
       ∧ Tickets s' !! ticketID = Some t'
       ∧ status t' = "CLOSED" ∧ closedAt t' = Some (env_now env)
       ∧ ∀ j, j ≠ ticketID → Tickets s' !! j = Tickets s !! j)
  ∧ (status t ≠ "RESOLVED" →
     ∃ e, closeTicket env ticketID agentName s = (Rejected [e], s)
       ∧ ConflictError e)
  ∧ ((∃ r s', closeTicket env ticketID agentName s = (Ok r, s'))
     ↔ status t = "RESOLVED").
Proof.
  intros Ht. unfold closeTicket. rewrite Ht. split_and!.
  - intros Hst. rewrite decide_False by (rewrite Hst; discriminate).
    rewrite decide_False by (intros H; by apply H).
    rewrite Tickets_logAudit, (Tickets_UPDATE_eq _ _ _ _ Ht).
    eexists _, _. split; [reflexivity|].
    rewrite Tickets_logAudit, (Tickets_UPDATE_eq _ _ _ _ Ht).
    split_and!; try done.
    intros j Hj. by rewrite Tickets_UPDATE_ne.
  - intros Hst. case_decide.
    + eexists; split; [reflexivity|done].
    + rewrite decide_True by done. eexists; split; [reflexivity|done].
  - split.
    + intros (r & s' & H). guards.
    + intros Hst. rewrite decide_False by (rewrite Hst; discriminate).
      rewrite decide_False by (intros H; by apply H). eauto.
Qed.

(** ** Length checks *)

Lemma too_short_false n x : (0 < n)%nat → JS.too_short n x = false ↔ at_least n x.
Proof.
  intros Hn. unfold at_least. destruct x as [r|]; simpl.
  - rewrite orb_false_iff, Nat.ltb_ge. split.
    + intros [_ Hlen]. eauto.
    + intros (r' & [= <-] & Hlen). split; [|done].
      destruct r; [simpl in Hlen; lia | done].
  - split; [done | by intros (r & ? & _)].
Qed.

Lemma too_short_true n x : (0 < n)%nat → JS.too_short n x = true ↔ ¬ at_least n x.
Proof.
  intros Hn. rewrite <- (too_short_false n x Hn). by destruct (JS.too_short n x).
Qed.

(** ** Generic update *)

(** C6: a generic update of a ticket whose status is CLOSED is answered
    with one ConflictError whatever the payload, and the store is as
    before. *)
Theorem update_CLOSED_rejected id patch s t :
  Tickets s !! id = Some t →
  status t = "CLOSED" →
  ∃ e, update id patch s = (Rejected [e], s) ∧ ConflictError e.
Proof.
  intros Ht Hst. unfold update, before_UPDATE. rewrite Ht.
  rewrite decide_True by done. eexists. split; [reflexivity | done].
Qed.

(** ** reopenTicket *)

(** C8: on an existing RESOLVED or CLOSED ticket, reopenTicket with a
    reason of at least 5 characters after trimming stores status OPEN and
    clears resolvedAt, closedAt and resolutionNote; with a shorter or
    missing reason it answers one ValidationError; on a ticket in any other
    status it answers one ConflictError; both errors leave the store as it
    was. *)
Theorem reopenTicket_spec env ticketID reason agentName s t :
  Tickets s !! ticketID = Some t →
  (terminal (status t) → at_least 5 reason →
     ∃ t' s', reopenTicket env ticketID reason agentName s = (Ok (Some t'), s')
       ∧ Tickets s' !! ticketID = Some t'
       ∧ status t' = "OPEN" ∧ resolvedAt t' = None ∧ closedAt t' = None
       ∧ resolutionNote t' = None)
  ∧ (terminal (status t) → ¬ at_least 5 reason →
     ∃ e, reopenTicket env ticketID reason agentName s = (Rejected [e], s)
       ∧ ValidationError e)
  ∧ (¬ terminal (status t) →
     ∃ e, reopenTicket env ticketID reason agentName s = (Rejected [e], s)
       ∧ ConflictError e).
Proof.
  intros Ht. unfold reopenTicket. rewrite Ht. split_and!.
  - intros Hst Hlen. apply too_short_false in Hlen; [|lia].
    rewrite decide_False, Hlen by (intros H; by apply H).
    rewrite Tickets_logAudit, Tickets_INSERT_Comments, (Tickets_UPDATE_eq _ _ _ _ Ht).
    eexists _, _. split; [reflexivity|].
    by rewrite Tickets_logAudit, Tickets_INSERT_Comments, (Tickets_UPDATE_eq _ _ _ _ Ht).
  - intros Hst Hlen. apply too_short_true in Hlen; [|lia].
    rewrite decide_False, Hlen by (intros H; by apply H).
    eexists. split; [reflexivity | done].
  - intros Hst. rewrite decide_True by done.
    eexists. split; [reflexivity | done].
Qed.

(** ** changePriority *)

(** C10, as amended: changePriority never looks at the status. With one
    of the four priorities it succeeds on every existing ticket, CLOSED and
    RESOLVED included, stores the priority and keeps the status; it fails
    only with a NotFoundError for a missing ticket and with a
    ValidationError for any other priority value. On a CLOSED ticket it is
    one of two lifecycle requests that can succeed, the other being
    reopenTicket. *)
Theorem changePriority_ignores_status env ticketID priority' reason s :
  (valid_priority priority' → ∀ t, Tickets s !! ticketID = Some t →
     ∃ t' s', changePriority env ticketID priority' reason s = (Ok (Some t'), s')
       ∧ Tickets s' !! ticketID = Some t'
       ∧ priority t' = priority' ∧ status t' = status t)
  ∧ (valid_priority priority' → Tickets s !! ticketID = None →
     ∃ e, changePriority env ticketID priority' reason s = (Rejected [e], s)
       ∧ NotFoundError e)
  ∧ (¬ valid_priority priority' →
     ∃ e, changePriority env ticketID priority' reason s = (Rejected [e], s)
       ∧ ValidationError e)
  ∧ (∀ op t r s', ticket_of op = ticketID →
       Tickets s !! ticketID = Some t → status t = "CLOSED" →
       step env op s = (Ok r, s') →
       match op with
       | ChangePriority _ _ _ | ReopenTicket _ _ _ => True
       | _ => False
       end).
Proof.
  split_and!.
  - unfold changePriority. intros Hp t Ht. rewrite decide_True, Ht by done.
    rewrite Tickets_logAudit, (Tickets_UPDATE_eq _ _ _ _ Ht).
    eexists _, _. split; [reflexivity|].
    by rewrite Tickets_logAudit, (Tickets_UPDATE_eq _ _ _ _ Ht).
  - unfold changePriority. intros Hp Ht. rewrite decide_True, Ht by done.
    eexists. split; [reflexivity | done].
  - unfold changePriority. intros Hp. rewrite decide_False by done.
    eexists. split; [reflexivity | done].
  - intros op t r s' <- Ht Hst.
    destruct op; simpl in *; try done;
      [ unfold create | unfold assignAgent | unfold resolveTicket
      | unfold closeTicket | unfold escalateTicket ];
      rewrite Ht; repeat case_match; try done;
      match goal with H : ¬ _ |- _ => destruct H; rewrite Hst; compute_done end.
Qed.

(** ** resolveTicket *)

(** C5, as amended: with a resolution note that is absent or shorter than
    10 characters after trimming, resolveTicket on an existing ticket
    answers one ValidationError when the status is neither RESOLVED nor
    CLOSED, and one ConflictError when it is; either way the store is as
    before. *)
Theorem resolveTicket_short_note env ticketID resolutionNote' agentName s t :
  Tickets s !! ticketID = Some t →
  ¬ at_least 10 resolutionNote' →
  ∃ e, resolveTicket env ticketID resolutionNote' agentName s = (Rejected [e], s)
    ∧ (¬ terminal (status t) → ValidationError e)
    ∧ (terminal (status t) → ConflictError e).
Proof.
  intros Ht Hlen. apply too_short_true in Hlen; [|lia].
  unfold resolveTicket. rewrite Ht. case_decide.
  - eexists. split; [reflexivity|]. by split.
  - rewrite Hlen. eexists. split; [reflexivity|]. by split.
Qed.

(** ** The handlers on the sample stores *)


Lemma opened_row : Tickets Sample.opened !! "tkt-0001" = Some Sample.row_opened.
Proof. vm_compute. reflexivity. Defined.

Lemma resolved_row : Tickets Sample.resolved !! "tkt-0001" = Some Sample.row_resolved.
Proof. vm_compute. reflexivity. Defined.

Lemma closed_row : Tickets Sample.closed !! "tkt-0001" = Some Sample.row_closed.
Proof. vm_compute. reflexivity. Defined.

Lemma closeTicket_iff_RESOLVED_witness :
  Tickets Sample.resolved !! "tkt-0001" = Some Sample.row_resolved
  ∧ ∃ t', (closeTicket Sample.env_2023 "tkt-0001" None Sample.resolved).1 = Ok (Some t')
          ∧ status t' = "CLOSED" ∧ closedAt t' = Some 1690000000000%Z.
Proof.
  split; [exact resolved_row|].
  destruct (closeTicket_iff_RESOLVED Sample.env_2023 "tkt-0001" None
              Sample.resolved Sample.row_resolved resolved_row) as (Hok & _ & _).
  destruct Hok as (t' & s' & Heq & _ & Hst & Hat & _); [reflexivity|].
  exists t'. rewrite Heq. done.
Defined.

Lemma update_CLOSED_rejected_witness :
  Tickets Sample.closed !! "tkt-0001" = Some Sample.row_closed
  ∧ status Sample.row_closed = "CLOSED"
  ∧ ∃ e, update "tkt-0001" (set_priority (Some "LOW")) Sample.closed
         = (Rejected [e], Sample.closed) ∧ ConflictError e.
Proof.
  split_and!; [exact closed_row | reflexivity |].
  apply (update_CLOSED_rejected "tkt-0001" (set_priority (Some "LOW"))
           Sample.closed Sample.row_closed closed_row).
  reflexivity.
Defined.

Lemma reopenTicket_spec_witness :
  Tickets Sample.closed !! "tkt-0001" = Some Sample.row_closed
  ∧ terminal (status Sample.row_closed)
  ∧ at_least 5 (Some "  Jammed again  ")
  ∧ ∃ t', (reopenTicket Sample.env_2024 "tkt-0001" (Some "  Jammed again  ") None
             Sample.closed).1 = Ok (Some t')
          ∧ status t' = "OPEN" ∧ resolvedAt t' = None ∧ closedAt t' = None
          ∧ resolutionNote t' = None.
Proof.
  assert (Hst : terminal (status Sample.row_closed)) by compute_done.
  assert (Hlen : at_least 5 (Some "  Jammed again  ")).
  { eexists. split; [reflexivity|]. vm_compute. lia. }
  split_and!; [exact closed_row | exact Hst | exact Hlen |].
  destruct (reopenTicket_spec Sample.env_2024 "tkt-0001" (Some "  Jammed again  ") None
              Sample.closed Sample.row_closed closed_row) as (Hok & _ & _).
  destruct (Hok Hst Hlen) as (t' & s' & Heq & _ & H).
  exists t'. rewrite Heq. done.
Defined.

Lemma changePriority_ignores_status_witness :
  valid_priority (Some "CRITICAL")
  ∧ Tickets Sample.closed !! "tkt-0001" = Some Sample.row_closed
  ∧ ∃ t', (changePriority Sample.env_2024 "tkt-0001" (Some "CRITICAL") None
             Sample.closed).1 = Ok (Some t')
          ∧ priority t' = Some "CRITICAL" ∧ status t' = "CLOSED".
Proof.
  assert (Hp : valid_priority (Some "CRITICAL")) by compute_done.
  split_and!; [exact Hp | exact closed_row |].
  destruct (changePriority_ignores_status Sample.env_2024 "tkt-0001"
              (Some "CRITICAL") None Sample.closed) as (Hok & _ & _).
  destruct (Hok Hp _ closed_row) as (t' & s' & Heq & _ & Hpr & Hst).
  exists t'. rewrite Heq. done.
Defined.

(** C10, as stated, fails in one clause: changePriority is not the only
    request that goes through on a CLOSED ticket, reopenTicket does too. *)
Lemma reopenTicket_on_CLOSED :
  ¬ (∀ env op s t r s',
       Tickets s !! ticket_of op = Some t → status t = "CLOSED" →
       step env op s = (Ok r, s') →
       match op with ChangePriority _ _ _ => True | _ => False end).
Proof.
  intros H.
  assert (∃ r s', step Sample.env_2024
                    (ReopenTicket "tkt-0001" (Some "Jammed again") None)
                    Sample.closed = (Ok r, s')) as (r & s' & Hstep).
  { eexists _, _. vm_compute. reflexivity. }
  exact (H _ (ReopenTicket "tkt-0001" (Some "Jammed again") None) _ _ _ _
           closed_row eq_refl Hstep).
Qed.

Lemma resolveTicket_short_note_witness :
  Tickets Sample.opened !! "tkt-0001" = Some Sample.row_opened
  ∧ ¬ at_least 10 (Some "Fixed")
  ∧ ∃ e, resolveTicket Sample.env_2023 "tkt-0001" (Some "Fixed") None Sample.opened
         = (Rejected [e], Sample.opened) ∧ ValidationError e.
Proof.
  assert (Hlen : ¬ at_least 10 (Some "Fixed")).
  { intros (r & [= <-] & H). vm_compute in H. lia. }
  split_and!; [exact opened_row | exact Hlen |].
  destruct (resolveTicket_short_note Sample.env_2023 "tkt-0001" (Some "Fixed") None
              Sample.opened Sample.row_opened opened_row Hlen) as (e & Heq & Hv & _).
  exists e. split; [exact Heq|]. apply Hv. compute_done.
Defined.

(** C5, as stated, fails: on a RESOLVED ticket a short note is answered
    with a ConflictError (409), not a ValidationError. *)
Lemma resolveTicket_short_note_on_RESOLVED :
  ¬ (∀ env ticketID resolutionNote' agentName s t,
       Tickets s !! ticketID = Some t →
       ¬ at_least 10 resolutionNote' →
       ∃ e, resolveTicket env ticketID resolutionNote' agentName s = (Rejected [e], s)
            ∧ ValidationError e).
Proof.
  intros H.
  destruct (H Sample.env_2023 "tkt-0001" (Some "Fixed") None Sample.resolved
              Sample.row_resolved resolved_row) as (e & Heq & He).
  { intros (r & [= <-] & Hlen). vm_compute in Hlen. lia. }
  vm_compute in Heq. injection Heq as <-. discriminate He.
Qed.

(** ** Escalation *)

Lemma levels_own p :
  levels !! p = if decide (p ∈ validPriorities) then Some (spec_next (Some p)) else None.
Proof.
  unfold levels, validPriorities, spec_next.
  destruct (String.eqb_spec p "LOW") as [->|H1]; [done|].
  rewrite lookup_insert_ne by done.
  destruct (String.eqb_spec p "MEDIUM") as [->|H2]; [done|].
  rewrite lookup_insert_ne by done.
  destruct (String.eqb_spec p "HIGH") as [->|H3]; [done|].
  rewrite lookup_insert_ne by done.
  destruct (String.eqb_spec p "CRITICAL") as [->|H4]; [done|].
  rewrite lookup_insert_ne, lookup_empty by done.
  rewrite decide_False; [done|].
  rewrite !elem_of_cons, elem_of_nil. by intros [?|[?|[?|[?|[]]]]].
Qed.

Lemma spec_next_other p : p ∉ validPriorities → spec_next (Some p) = "HIGH".
Proof.
  intros H. unfold spec_next.
  destruct (String.eqb_spec p "LOW") as [->|_]; [destruct H; compute_done|].
  destruct (String.eqb_spec p "MEDIUM") as [->|_]; [destruct H; compute_done|].
  destruct (String.eqb_spec p "HIGH") as [->|_]; [destruct H; compute_done|].
  destruct (String.eqb_spec p "CRITICAL") as [->|_]; [destruct H; compute_done|].
  done.
Qed.

Lemma spec_next_truthy p : String.eqb (spec_next p) "" = false.
Proof. destruct p as [p|]; [|done]. unfold spec_next. by repeat case_match. Qed.

(** On the four levels, and on every other value that is not the name of
    a member of [Object.prototype], [_escalatePriority] is the successor
    function of the specification. *)
Lemma _escalatePriority_spec_next p :
  JS.interpolate p ∉ Object_prototype →
  _escalatePriority p = JStr (spec_next p).
Proof.
  intros Hp. unfold _escalatePriority, get.
  destruct p as [p|]; [|done].
  change (JS.interpolate (Some p)) with p in *.
  rewrite levels_own. case_decide.
  - by rewrite spec_next_truthy.
  - by rewrite decide_False, spec_next_other.
Qed.

(** The name of an inherited member is answered with that member. *)
Lemma _escalatePriority_inherited k :
  k ∈ Object_prototype → _escalatePriority (Some k) = JInherited k.
Proof.
  intros Hk. unfold _escalatePriority, get. simpl.
  rewrite levels_own, decide_False, decide_True; [done..|].
  intros Hv. revert Hk. unfold validPriorities in Hv.
  rewrite !elem_of_cons, elem_of_nil in Hv.
  destruct Hv as [->|[->|[->|[->|[]]]]]; compute_done.
Qed.

(** The part of C3 the code keeps: on an existing ticket that is neither
    RESOLVED nor CLOSED and whose priority is not the name of an inherited
    member, escalateTicket stores the successor priority and status
    IN_PROGRESS; on a RESOLVED or CLOSED ticket it answers one
    ConflictError and the store is as before. *)
Lemma escalateTicket_spec env ticketID reason agentName s t :
  Tickets s !! ticketID = Some t →
  (¬ terminal (status t) → JS.interpolate (priority t) ∉ Object_prototype →
     ∃ t' s', escalateTicket env ticketID reason agentName s = (Ok (Some t'), s')
       ∧ Tickets s' !! ticketID = Some t'
       ∧ priority t' = Some (spec_next (priority t))
       ∧ status t' = "IN_PROGRESS")
  ∧ (terminal (status t) →
     ∃ e, escalateTicket env ticketID reason agentName s = (Rejected [e], s)
       ∧ ConflictError e).
Proof.
  intros Ht. unfold escalateTicket. rewrite Ht. split.
  - intros Hst Hp. rewrite decide_False by done.
    rewrite (_escalatePriority_spec_next _ Hp). simpl bind_priority. cbv iota beta.
    rewrite Tickets_logAudit, Tickets_INSERT_Comments, (Tickets_UPDATE_eq _ _ _ _ Ht).
    eexists _, _. split; [reflexivity|].
    by rewrite Tickets_logAudit, Tickets_INSERT_Comments, (Tickets_UPDATE_eq _ _ _ _ Ht).
  - intros Hst. rewrite decide_True by done.
    eexists. split; [reflexivity | done].
Qed.

(** C3 at the failing input: the priority "toString" is none of the four
    levels, yet [_escalatePriority] answers it with the inherited function
    instead of HIGH; escalateTicket on the sample ticket with that
    priority then hands this value to UPDATE, so it fails there or stores
    whatever the persistence layer makes of the function. *)
Theorem escalate_toString :
  ("toString" ∉ validPriorities)
  ∧ spec_next (Some "toString") = "HIGH"
  ∧ _escalatePriority (Some "toString") = JInherited "toString"
  ∧ ∀ env,
      match env_bind env "toString" with
      | None => escalateTicket env "tkt-0002" None None Sample.odd = (Failed, Sample.odd)
      | Some v => ∃ t', (escalateTicket env "tkt-0002" None None Sample.odd).1 = Ok (Some t')
                        ∧ priority t' = v
      end.
Proof.
  split_and!; [compute_done | reflexivity | compute_done |].
  intros env.
  assert (Ht : ∃ t, Tickets Sample.odd !! "tkt-0002" = Some t
                    ∧ status t = "OPEN" ∧ priority t = Some "toString").
  { eexists. split; [vm_compute; reflexivity | done]. }
  destruct Ht as (t & Ht & Hst & Hp).
  unfold escalateTicket. rewrite Ht, Hp.
  rewrite decide_False by (rewrite Hst; compute_done).
  rewrite _escalatePriority_inherited by compute_done. simpl bind_priority.
  destruct (env_bind env "toString") as [v|]; [|done].
  rewrite Tickets_logAudit, Tickets_INSERT_Comments, (Tickets_UPDATE_eq _ _ _ _ Ht).
  eexists. split; [reflexivity | done].
Qed.

(** ** getAgentTickets *)

Lemma elem_of_rows s t : t ∈ rows s ↔ ∃ k, Tickets s !! k = Some t.
Proof.
  unfold rows. rewrite list_elem_of_fmap. split.
  - intros ([k t'] & -> & Hin). exists k. by apply elem_of_map_to_list.
  - intros (k & Hk). exists (k, t). split; [done|]. by apply elem_of_map_to_list.
Qed.

(** The rows returned are the tickets of the agent that are not CLOSED. *)
Lemma getAgentTickets_rows agentID s t :
  t ∈ getAgentTickets agentID s
  ↔ (∃ k, Tickets s !! k = Some t)
    ∧ assignedTo_ID t = Some agentID ∧ status t ≠ "CLOSED".
Proof.
  unfold getAgentTickets.
  rewrite merge_sort_Permutation, list_elem_of_filter, elem_of_rows.
  unfold where_agent. tauto.
Qed.

Lemma sql_compare_antisym a b : sql_compare a b = CompOpp (sql_compare b a).
Proof. destruct a, b; simpl; try done. apply String.compare_antisym. Qed.

#[export] Instance order_by_total : Total order_by.
Proof.
  intros t1 t2. unfold order_by.
  rewrite (sql_compare_antisym (priority t2)).
  destruct (sql_compare (priority t1) (priority t2)); simpl; [by left | by left | by right].
Qed.

(** They come sorted by the [priority] strings, least first. *)
Lemma getAgentTickets_sorted agentID s : Sorted order_by (getAgentTickets agentID s).
Proof. apply (Sorted_merge_sort order_by). Qed.

(** The order of the strings is not the order of the levels. *)
Lemma sql_compare_levels :
  sql_compare (Some "CRITICAL") (Some "HIGH") = Lt
  ∧ sql_compare (Some "HIGH") (Some "LOW") = Lt
  ∧ sql_compare (Some "LOW") (Some "MEDIUM") = Lt.
Proof. done. Qed.

(** C9 at the failing input: of the two open tickets of agent agt-0001,
    the LOW one comes first and the MEDIUM one last, so the list is not
    ordered by priority descending under LOW < MEDIUM < HIGH < CRITICAL. *)
Theorem getAgentTickets_LOW_before_MEDIUM :
  (λ t, (ID t, priority t)) <$> getAgentTickets "agt-0001" Sample.queue
  = [ ("tkt-0002", Some "LOW"); ("tkt-0001", Some "MEDIUM") ]
  ∧ ¬ Sorted spec_order (getAgentTickets "agt-0001" Sample.queue).
Proof. split; compute_done. Qed.

(** ** Ticket numbers *)

Section Digits.
Import Decimal.

Lemma length_append (s1 s2 : string) :
  String.length (s1 +:+ s2) = (String.length s1 + String.length s2)%nat.
Proof. induction s1 as [|a s1 IH]; simpl; [done | by rewrite IH]. Qed.

Lemma length_replicate_char n c : String.length (JS.replicate_char n c) = n.
Proof. induction n as [|n IH]; simpl; [done | by rewrite IH]. Qed.

(** [padStart] fills up to the target length and never cuts. *)
Lemma length_padStart n c s :
  String.length (JS.padStart n c s) = (n `max` String.length s)%nat.
Proof. unfold JS.padStart. rewrite length_append, length_replicate_char. lia. Qed.

Lemma to_uint_nonnil (n : N) : N.to_uint n ≠ Nil.
Proof. destruct n; [done | apply DecimalPos.Unsigned.to_uint_nonnil]. Qed.

Lemma uint_of_String_of_N n :
  NilEmpty.uint_of_string (JS.String_of_N n) = Some (N.to_uint n).
Proof.
  unfold JS.String_of_N, NilZero.string_of_uint.
  pose proof (to_uint_nonnil n) as Hn.
  destruct (N.to_uint n) eqn:E; [done | apply NilEmpty.usu ..].
Qed.

Lemma uint_of_zeros k s d :
  NilEmpty.uint_of_string s = Some d →
  ∃ d', NilEmpty.uint_of_string (JS.replicate_char k "0" +:+ s) = Some d'
        ∧ N.of_uint d' = N.of_uint d.
Proof.
  intros Hs. induction k as [|k (d' & Hd' & Heq)]; simpl.
  - eauto.
  - rewrite Hd'. simpl. eauto.
Qed.

(** The sequence part reads back as the number it was made from,
    whatever the padding. *)
Lemma N_of_digits_padStart k n :
  (0 < k)%nat →
  JS.N_of_digits (JS.padStart k "0" (JS.String_of_N n)) = Some n.
Proof.
  intros Hk. unfold JS.N_of_digits.
  destruct (uint_of_zeros (k - String.length (JS.String_of_N n))
              _ _ (uint_of_String_of_N n)) as (d' & Hd' & Heq).
  fold (JS.padStart k "0" (JS.String_of_N n)) in Hd'.
  pose proof (length_padStart k "0" (JS.String_of_N n)) as Hlen.
  unfold NilZero.uint_of_string.
  destruct (JS.padStart k "0" (JS.String_of_N n)); [simpl in Hlen; lia|].
  rewrite Hd'. simpl. by rewrite Heq, DecimalN.Unsigned.of_to.
Qed.
Lemma length_string_of_uint d :
  String.length (NilEmpty.string_of_uint d) = N.to_nat (DecimalPos.Unsigned.usize d).
Proof. induction d; simpl; rewrite ?IHd; lia. Qed.

Lemma of_uint_acc_lower d acc :
  (10 ^ DecimalPos.Unsigned.usize d <= Npos (Pos.of_uint_acc d acc))%N.
Proof. rewrite DecimalPos.Unsigned.of_uint_acc_rev. nia. Qed.

Lemma usize_small (a : N) : (10 ^ a < 10 ^ 5)%N → (a < 5)%N.
Proof. intros H. by apply N.pow_lt_mono_r_iff in H. Qed.

Lemma leading_zero_alone l : D0 l = unorm (D0 l) → l = Nil.
Proof.
  unfold unorm. simpl nzhead. intros H.
  pose proof (DecimalFacts.nb_digits_nzhead l) as Hle.
  destruct (nzhead l); try (rewrite <- H in Hle; simpl in Hle; lia).
  by injection H.
Qed.

(** A number below 100000 is written with at most five digits. *)
Lemma length_String_of_N n :
  (n < 100000)%N → (String.length (JS.String_of_N n) ≤ 5)%nat.
Proof.
  intros Hn. unfold JS.String_of_N, NilZero.string_of_uint.
  pose proof (DecimalN.Unsigned.of_to n) as Hof.
  pose proof (DecimalN.Unsigned.to_of (N.to_uint n)) as Hto. rewrite Hof in Hto.
  destruct (N.to_uint n) as [|l|l|l|l|l|l|l|l|l|l] eqn:E; [simpl; lia | | ..].
  { apply leading_zero_alone in Hto as ->. simpl. lia. }
  all: simpl in Hof;
    match type of Hof with
    | N.pos (Pos.of_uint_acc ?d ?k) = _ =>
        pose proof (of_uint_acc_lower d k) as Hlow;
        rewrite Hof in Hlow;
        assert (DecimalPos.Unsigned.usize d < 5)%N
          by (apply usize_small; change (10 ^ 5)%N with 100000%N; lia)
    end;
    simpl; rewrite length_string_of_uint; lia.
Qed.

(** Below 99999 tickets the sequence part has exactly five digits. *)
Lemma length_padStart_5 n :
  (n < 100000)%N → String.length (JS.padStart 5 "0" (JS.String_of_N n)) = 5%nat.
Proof.
  intros Hn. rewrite length_padStart.
  pose proof (length_String_of_N n Hn). lia.
Qed.
End Digits.

(** A successful create inserts exactly the new row under a fresh key. *)
Lemma create_Ok env d s r s' :
  create env d s = (Ok r, s') →
  Tickets s !! d_ID d = None
  ∧ r = Some (new_ticket env d s)
  ∧ Tickets s' = <[d_ID d := new_ticket env d s]> (Tickets s).
Proof. unfold create. intros H. guards. Qed.

(** C4, as amended: the number of a created ticket is TKT-, the current
    year, a dash and a sequence part; the sequence part is the count of
    all tickets in the store, of whatever year, plus one, in decimal,
    filled with zeros on the left to at least 5 characters, and exactly 5
    while the store holds fewer than 99999 tickets. *)
Theorem create_ticketNumber env d s t s' :
  create env d s = (Ok (Some t), s') →
  ∃ seq, ticketNumber t = Some ("TKT-" +:+ JS.String_of_Z (env_year env) +:+ "-" +:+ seq)
    ∧ JS.N_of_digits seq = Some (N.of_nat (size (Tickets s)) + 1)%N
    ∧ (5 ≤ String.length seq)%nat
    ∧ ((N.of_nat (size (Tickets s)) < 99999)%N → String.length seq = 5%nat).
Proof.
  intros (_ & [= ->] & _)%create_Ok.
  exists (next_seq s). split_and!.
  - done.
  - apply N_of_digits_padStart. lia.
  - unfold next_seq. rewrite length_padStart. lia.
  - intros Hsize. apply length_padStart_5. lia.
Qed.

Lemma create_ticketNumber_witness :
  let d := Sample.printer "tkt-0002" None in
  let r := create Sample.env_2024 d Sample.opened in
  r = (Ok (Some (new_ticket Sample.env_2024 d Sample.opened)), r.2)
  ∧ ∃ seq, ticketNumber (new_ticket Sample.env_2024 d Sample.opened)
           = Some ("TKT-" +:+ JS.String_of_Z 2024 +:+ "-" +:+ seq)
      ∧ JS.N_of_digits seq = Some (N.of_nat (size (Tickets Sample.opened)) + 1)%N
      ∧ (5 ≤ String.length seq)%nat
      ∧ ((N.of_nat (size (Tickets Sample.opened)) < 99999)%N → String.length seq = 5%nat).
Proof.
  intros d r.
  assert (H : r = (Ok (Some (new_ticket Sample.env_2024 d Sample.opened)), r.2))
    by (vm_compute; reflexivity).
  split; [exact H|].
  exact (create_ticketNumber Sample.env_2024 d Sample.opened _ _ H).
Defined.

(** The second ticket ever, created in 2024 after one ticket of 2023, is
    numbered 00002. *)
Example second_ticket_number :
  new_ticketNumber Sample.env_2024 Sample.opened = "TKT-2024-00002"
  ∧ spec_ticketNumber Sample.env_2024 Sample.opened = "TKT-2024-00001".
Proof. split; vm_compute; reflexivity. Qed.

(** With 99999 tickets in the store the sequence part has six digits. *)
Example sixth_digit : JS.padStart 5 "0" (JS.String_of_N (99999 + 1)) = "100000".
Proof. vm_compute. reflexivity. Qed.

(** C4, as stated, fails: the sequence does not restart with the year. *)
Lemma ticketNumber_not_per_year :
  ¬ (∀ env d s t s',
       create env d s = (Ok (Some t), s') →
       ticketNumber t = Some (spec_ticketNumber env s)).
Proof.
  intros H.
  specialize (H Sample.env_2024 (Sample.printer "tkt-0002" None) Sample.opened
                _ _ eq_refl).
  vm_compute in H. discriminate H.
Qed.

(** ** Timestamps along a sequence of requests *)








(** The other two ways a timestamp outlives or precedes its status:
    assignAgent moves a RESOLVED ticket to IN_PROGRESS with its resolvedAt,
    and a create request may carry a closedAt of its own. *)
Example assignAgent_keeps_resolvedAt :
  ∃ t, (assignAgent Sample.env_2024 "tkt-0001" "agt-0001" None Sample.resolved).1
       = Ok (Some t)
       ∧ status t = "IN_PROGRESS" ∧ resolvedAt t = Some 1690000000000%Z.
Proof. eexists. split; [vm_compute; reflexivity | done]. Qed.

Example create_with_closedAt :
  ∃ t, (create Sample.env_2024
          {| d_ID := "tkt-0009"; d_ticketNumber := None;
             d_title := Some "Screen flickers"; d_description := Some "Flickers when docked";
             d_status := Some "CLOSED"; d_priority := None; d_category_ID := None;
             d_department_ID := None; d_reporter_ID := Some "emp-0001";
             d_assignedTo_ID := None; d_resolvedAt := None; d_closedAt := Some 5%Z;
             d_dueDate := None; d_resolutionNote := None; d_isOverdue := None |}
          Sample.base).1 = Ok (Some t)
       ∧ status t = "OPEN" ∧ closedAt t = Some 5%Z.
Proof. eexists. split; [vm_compute; reflexivity | done]. Qed.

(** ** The audit trail *)

(** C7: every successful lifecycle request appends exactly one record to
    the audit log, for the ticket of the request, and leaves the records
    already there in place. *)
Theorem one_audit_record env op s r s' :
  step env op s = (Ok r, s') →
  ∃ e, AuditLogs s' = AuditLogs s ++ [e] ∧ AuditLog.ticket_ID e = ticket_of op.
Proof.
  destruct op; simpl;
    [ unfold create | unfold assignAgent | unfold changePriority
    | unfold resolveTicket | unfold closeTicket | unfold escalateTicket
    | unfold reopenTicket ];
    repeat case_match; intros [= <- <-]; by eexists.
Qed.

Lemma one_audit_record_witness :
  let r := step Sample.env_2023 Sample.close_1 Sample.resolved in
  r = (Ok (Tickets r.2 !! "tkt-0001"), r.2)
  ∧ ∃ e, AuditLogs r.2 = AuditLogs Sample.resolved ++ [e]
         ∧ AuditLog.ticket_ID e = "tkt-0001".
Proof.
  intros r.
  assert (H : r = (Ok (Tickets r.2 !! "tkt-0001"), r.2)) by (vm_compute; reflexivity).
  split; [exact H|].
  exact (one_audit_record _ _ _ _ _ H).
Defined.

(** * Further properties of the handlers *)

(** ** What one request writes *)

Lemma or_else_filled x d : d ≠ "" → JS.or_else x d ≠ "".
Proof.
  intros Hd. unfold JS.or_else. destruct x as [x|]; [|done].
  destruct (String.eqb_spec x ""); done.
Qed.

Lemma truthy_filled x : (if JS.truthy x then x else None) ≠ Some "".
Proof.
  destruct x as [x|]; simpl; [|done].
  destruct (String.eqb_spec x "") as [->|Hx]; simpl; [done|].
  by intros [= ->].
Qed.

Lemma _logAudit_filled env i a o n p s :
  ∃ e, AuditLogs (_logAudit env i a o n p s) = AuditLogs s ++ [e]
       ∧ AuditLog.ticket_ID e = i ∧ audit_filled e.
Proof.
  eexists. split; [reflexivity|]. split; [done|].
  split_and!; simpl; [apply truthy_filled | apply truthy_filled |].
  by apply or_else_filled.
Qed.

(** A request either fails and leaves the store alone, or succeeds with
    the writes above. *)
Lemma step_writes env op s :
  (is_Ok (step env op s).1 = false ∧ (step env op s).2 = s)
  ∨ (is_Ok (step env op s).1 = true ∧ writes env op s (step env op s).2).
Proof.
  destruct op; simpl;
    [ unfold create, after_CREATE | unfold assignAgent | unfold changePriority
    | unfold resolveTicket | unfold closeTicket | unfold escalateTicket
    | unfold reopenTicket ];
    repeat case_match; try (left; done); right; (split; [done|]);
    unfold writes; cbn [fst snd]; (split; [done|]); (split; [done|]);
    (split;
       [ eexists; split; [reflexivity|]; split; [done|];
         unfold audit_filled;
         cbn [AuditLog.oldValue AuditLog.newValue AuditLog.performedBy];
         split_and!; first [ apply truthy_filled | by apply or_else_filled ] |]).
  all: split;
    [ first [ exists []; rewrite app_nil_r; split; [done|]; split; [simpl; lia|];
              by intros c ?%elem_of_nil
            | eexists [_]; split; [done|]; split; [simpl; lia|];
              intros c ->%list_elem_of_singleton; done ]
    | first [ left; eexists; done
            | right; eexists; split; [by eexists|]; split; [reflexivity|];
              by intros ?; repeat split ] ].
Qed.

(** X1: a lifecycle request that does not succeed (rejected with errors, or
    failed in the persistence layer) leaves the whole store as it was:
    every guard of every handler comes before its first write. *)
Theorem failure_writes_nothing env op s :
  is_Ok (step env op s).1 = false → (step env op s).2 = s.
Proof.
  intros Hfail. destruct (step_writes env op s) as [[_ Hs]|[Hok _]]; [done|].
  congruence.
Qed.

Lemma failure_writes_nothing_witness :
  is_Ok (step Sample.env_2024 (CloseTicket "tkt-0001" None) Sample.opened).1 = false
  ∧ (step Sample.env_2024 (CloseTicket "tkt-0001" None) Sample.opened).2 = Sample.opened.
Proof.
  assert (H : is_Ok (step Sample.env_2024 (CloseTicket "tkt-0001" None)
                       Sample.opened).1 = false) by (vm_compute; reflexivity).
  split; [exact H|]. exact (failure_writes_nothing _ _ _ H).
Defined.

(** ** What a sequence of requests keeps *)

Lemma same_fixed_refl t : same_fixed t t.
Proof. by repeat split. Qed.

Lemma same_fixed_trans t1 t2 t3 :
  same_fixed t1 t2 → same_fixed t2 t3 → same_fixed t1 t3.
Proof. unfold same_fixed. intros H1 H2. destruct_and!. split_and!; congruence. Qed.

Lemma step_keeps_row env op s i t :
  Tickets s !! i = Some t →
  ∃ t', Tickets (step env op s).2 !! i = Some t' ∧ same_fixed t t'.
Proof.
  intros Ht.
  destruct (step_writes env op s) as [[_ ->]|[_ (_ & _ & _ & _ & Hw)]].
  { exists t. split; [done | apply same_fixed_refl]. }
  destruct Hw as [(d & -> & Hfresh & ->)|(set & _ & -> & Hset)].
  - exists t. split; [|apply same_fixed_refl].
    rewrite lookup_insert_ne; [done | congruence].
  - rewrite lookup_alter. case_decide as Hi.
    + subst i. rewrite Ht. exists (set t). by split.
    + exists t. split; [done | apply same_fixed_refl].
Qed.

(** X2: no lifecycle request removes a ticket, and none changes its ID,
    ticket number, title, description, category, department, reporter,
    due date or creation time: a ticket present before a sequence of
    requests is present after it with these fields as they were. *)
Theorem fixed_fields_kept reqs s i t :
  Tickets s !! i = Some t →
  ∃ t', Tickets (run reqs s) !! i = Some t' ∧ same_fixed t t'.
Proof.
  revert s t. induction reqs as [|[env op] reqs IH]; intros s t Ht; simpl.
  - exists t. split; [done | apply same_fixed_refl].
  - destruct (step_keeps_row env op s i t Ht) as (t1 & Ht1 & H1).
    destruct (IH _ _ Ht1) as (t' & Ht' & H').
    exists t'. split; [done|]. by eapply same_fixed_trans.
Qed.

Lemma fixed_fields_kept_witness :
  Tickets Sample.opened !! "tkt-0001" = Some Sample.row_opened
  ∧ ∃ t', Tickets (run [ (Sample.env_2023, Sample.resolve_1);
                         (Sample.env_2024, Sample.close_1);
                         (Sample.env_2024, ReopenTicket "tkt-0001" (Some "Jammed again") None) ]
                     Sample.opened) !! "tkt-0001" = Some t'
          ∧ same_fixed Sample.row_opened t'.
Proof.
  split; [exact opened_row|].
  exact (fixed_fields_kept _ _ _ _ opened_row).
Defined.

Lemma step_keyed env op s : keyed s → keyed (step env op s).2.
Proof.
  intros Hs.
  destruct (step_writes env op s) as [[_ ->]|[_ (_ & _ & _ & _ & Hw)]]; [done|].
  intros i t. destruct Hw as [(d & -> & Hfresh & ->)|(set & _ & -> & Hset)].
  - rewrite lookup_insert. case_decide; [by intros [= <-] | apply Hs].
  - rewrite lookup_alter. case_decide as Hi; [|apply Hs].
    subst i. destruct (Tickets s !! ticket_of op) as [t0|] eqn:Ht0; [|done].
    intros [= <-]. destruct (Hset t0) as [-> _]. by apply Hs.
Qed.

Lemma run_keyed reqs s : keyed s → keyed (run reqs s).
Proof.
  revert s. induction reqs as [|[env op] reqs IH]; intros s Hs; simpl; [done|].
  by apply IH, step_keyed.
Qed.

(** X3: when every row is stored under its own ID, it stays so along every
    sequence of lifecycle requests: create inserts the row under the ID it
    carries, and the actions never write the ID. *)
Theorem keyed_kept reqs s : keyed s → keyed (run reqs s).
Proof. apply run_keyed. Qed.

Lemma keyed_kept_witness :
  keyed Sample.base ∧ keyed Sample.queue.
Proof.
  assert (H : keyed Sample.base).
  { intros i t Hi. simpl in Hi. rewrite lookup_empty in Hi. discriminate Hi. }
  split; [exact H|]. exact (keyed_kept _ _ H).
Defined.

(** X4: along every sequence of lifecycle requests the audit log and the
    comments only grow at the end. The audit log grows by exactly one
    record per request that succeeds, none of the new records holds an
    empty text (absent values are NULL, the performer is named), and the
    comments grow by at most one per successful request. *)
Theorem logs_append_only reqs s :
  ∃ es cs,
    AuditLogs (run reqs s) = AuditLogs s ++ es
    ∧ length es = successes reqs s
    ∧ Forall audit_filled es
    ∧ Comments (run reqs s) = Comments s ++ cs
    ∧ (length cs ≤ successes reqs s)%nat.
Proof.
  revert s. induction reqs as [|[env op] reqs IH]; intros s; simpl.
  { exists [], []. by rewrite !app_nil_r. }
  destruct (IH (step env op s).2) as (es & cs & Hes & Hlen & Hfill & Hcs & Hclen).
  destruct (step_writes env op s) as [[Hok Hs]|[Hok Hw]]; rewrite Hok.
  - rewrite Hs in *. exists es, cs. by split_and!.
  - destruct Hw as (_ & _ & (e & He & _ & Hfe) & (c1 & Hc1 & Hc1len & _) & _).
    exists (e :: es), (c1 ++ cs). split_and!.
    + rewrite Hes, He. by rewrite <- app_assoc.
    + simpl. by rewrite Hlen.
    + by constructor.
    + rewrite Hcs, Hc1. by rewrite <- app_assoc.
    + rewrite length_app. lia.
Qed.

Lemma step_keeps_some env op s i :
  is_Some (Tickets s !! i) → is_Some (Tickets (step env op s).2 !! i).
Proof.
  intros [t Ht]. destruct (step_keeps_row env op s i t Ht) as (t' & Ht' & _). eauto.
Qed.

Lemma step_references env op s : references_ok s → references_ok (step env op s).2.
Proof.
  intros [Hc He].
  destruct (step_writes env op s) as [[_ ->]|[_ Hw]]; [done|].
  destruct Hw as (_ & _ & (e & Hes & Hid & _) & (cs & Hcs & _ & Hcid) & Hw).
  assert (Hnew : is_Some (Tickets (step env op s).2 !! ticket_of op)).
  { destruct Hw as [(d & -> & _ & ->)|(set & Hsome & -> & _)].
    - simpl. rewrite lookup_insert_eq. by eexists.
    - rewrite lookup_alter, decide_True by done.
      destruct Hsome as [t ->]. by eexists. }
  split.
  - intros c. rewrite Hcs, elem_of_app. intros [Hin|Hin].
    + by apply step_keeps_some, Hc.
    + by rewrite (Hcid c Hin).
  - intros e'. rewrite Hes, elem_of_app, list_elem_of_singleton. intros [Hin| ->].
    + by apply step_keeps_some, He.
    + by rewrite Hid.
Qed.

(** X5: when every comment and every audit record is about a ticket in the
    store, this is still so after every sequence of lifecycle requests:
    records are only written for a ticket that was found or just created,
    and tickets are never removed. *)
Theorem references_kept reqs s : references_ok s → references_ok (run reqs s).
Proof.
  revert s. induction reqs as [|[env op] reqs IH]; intros s Hs; simpl; [done|].
  by apply IH, step_references.
Qed.

Lemma references_kept_witness :
  references_ok Sample.base ∧ references_ok Sample.closed.
Proof.
  assert (H : references_ok Sample.base).
  { split; intros x Hx; simpl in Hx; by apply elem_of_nil in Hx. }
  split; [exact H|].
  exact (references_kept
           [ (Sample.env_2023, Sample.create_1); (Sample.env_2023, Sample.resolve_1);
             (Sample.env_2023, Sample.close_1) ] _ H).
Defined.

(** X6: no lifecycle request writes the Agents or the Categories table. *)
Theorem master_data_untouched reqs s :
  Agents (run reqs s) = Agents s ∧ Categories (run reqs s) = Categories s.
Proof.
  revert s. induction reqs as [|[env op] reqs IH]; intros s; simpl; [done|].
  destruct (IH (step env op s).2) as [-> ->].
  destruct (step_writes env op s) as [[_ ->]|[_ (Ha & Hc & _)]]; [done|].
  by rewrite Ha, Hc.
Qed.

(** ** assignAgent *)

(** X7: assignAgent on an existing ticket. CLOSED: one ConflictError,
    whatever the agent. Otherwise, with an agent that exists and is
    active: the ticket gets the agent and status IN_PROGRESS (also when it
    was RESOLVED or ON_HOLD), its other fields and the other tickets stay;
    with an agent that is missing or inactive: one NotFoundError. Both
    errors leave the store as it was. *)
Theorem assignAgent_spec env ticketID agentID remarks s t :
  Tickets s !! ticketID = Some t →
  (status t ≠ "CLOSED" → (∃ a, Agents s !! agentID = Some a ∧ Agent.isActive a = true) →
     ∃ s', assignAgent env ticketID agentID remarks s
           = (Ok (Some (set_status "IN_PROGRESS" (set_assignedTo_ID (Some agentID) t))), s')
       ∧ Tickets s' = <[ticketID := set_status "IN_PROGRESS"
                                      (set_assignedTo_ID (Some agentID) t)]> (Tickets s)
       ∧ Comments s' = Comments s)
  ∧ (status t ≠ "CLOSED" →
     (Agents s !! agentID = None
      ∨ ∃ a, Agents s !! agentID = Some a ∧ Agent.isActive a = false) →
     ∃ e, assignAgent env ticketID agentID remarks s = (Rejected [e], s)
       ∧ NotFoundError e)
  ∧ (status t = "CLOSED" →
     ∃ e, assignAgent env ticketID agentID remarks s = (Rejected [e], s)
       ∧ ConflictError e).
Proof.
  intros Ht. unfold assignAgent, active_agent. rewrite Ht. split_and!.
  - intros Hst (a & Ha & Hact). rewrite decide_False, Ha, Hact by done.
    rewrite Tickets_logAudit, (Tickets_UPDATE_eq _ _ _ _ Ht).
    eexists. split; [reflexivity|]. split; [|done].
    simpl. apply map_eq. intros j.
    rewrite lookup_alter, lookup_insert. case_decide; [by rewrite Ht | done].
  - intros Hst Hag. rewrite decide_False by done.
    destruct Hag as [->|(a & -> & ->)]; (eexists; split; [reflexivity | done]).
  - intros Hst. rewrite decide_True by done.
    eexists; split; [reflexivity | done].
Qed.

Lemma assignAgent_spec_witness :
  Tickets Sample.resolved !! "tkt-0001" = Some Sample.row_resolved
  ∧ ∃ s', assignAgent Sample.env_2024 "tkt-0001" "agt-0001" None Sample.resolved
          = (Ok (Some (set_status "IN_PROGRESS"
                         (set_assignedTo_ID (Some "agt-0001") Sample.row_resolved))), s')
          ∧ Comments s' = Comments Sample.resolved.
Proof.
  split; [exact resolved_row|].
  destruct (assignAgent_spec Sample.env_2024 "tkt-0001" "agt-0001" None
              Sample.resolved Sample.row_resolved resolved_row) as (Hok & _ & _).
  destruct Hok as (s' & Heq & _ & Hc).
  - vm_compute. discriminate.
  - eexists. split; [vm_compute; reflexivity | reflexivity].
  - exists s'. by split.
Defined.

(** ** resolveTicket, closeTicket and reopenTicket one after the other *)

Lemma resolveTicket_Ok env ticketID resolutionNote' agentName s t :
  Tickets s !! ticketID = Some t →
  ¬ terminal (status t) →
  at_least 10 resolutionNote' →
  let t' := set_resolutionNote resolutionNote'
              (set_resolvedAt (Some (env_now env)) (set_status "RESOLVED" t)) in
  ∃ s', resolveTicket env ticketID resolutionNote' agentName s = (Ok (Some t'), s')
    ∧ Tickets s' = <[ticketID := t']> (Tickets s)
    ∧ Agents s' = Agents s
    ∧ (∃ c, Comments s' = Comments s ++ [c]
            ∧ Comment.ticket_ID c = ticketID ∧ Comment.isInternal c = false
            ∧ Comment.authorName c = JS.or_else agentName "Support Agent")
    ∧ length (AuditLogs s') = S (length (AuditLogs s)).
Proof.
  intros Ht Hst Hlen t'. apply too_short_false in Hlen; [|lia].
  unfold resolveTicket. rewrite Ht, decide_False, Hlen by done.
  rewrite Tickets_logAudit, Tickets_INSERT_Comments, (Tickets_UPDATE_eq _ _ _ _ Ht).
  eexists. split; [reflexivity|]. split_and!.
  - simpl. apply map_eq. intros j.
    rewrite lookup_alter, lookup_insert. case_decide; [by rewrite Ht | done].
  - done.
  - eexists. by split_and!.
  - simpl. rewrite length_app. simpl. lia.
Qed.

(** X8: resolveTicket on an existing ticket that is neither RESOLVED nor
    CLOSED, with a note of at least 10 characters after trimming: the
    ticket becomes RESOLVED with resolvedAt = now and the note as supplied
    (untrimmed); the other tickets stay; one public comment for the ticket
    is appended, signed by the agent name or, without one, by Support
    Agent. *)
Theorem resolveTicket_success env ticketID resolutionNote' agentName s t :
  Tickets s !! ticketID = Some t →
  ¬ terminal (status t) →
  at_least 10 resolutionNote' →
  ∃ t' s' c,
    resolveTicket env ticketID resolutionNote' agentName s = (Ok (Some t'), s')
    ∧ Tickets s' !! ticketID = Some t'
    ∧ status t' = "RESOLVED" ∧ resolvedAt t' = Some (env_now env)
    ∧ resolutionNote t' = resolutionNote'
    ∧ priority t' = priority t ∧ assignedTo_ID t' = assignedTo_ID t
    ∧ (∀ j, j ≠ ticketID → Tickets s' !! j = Tickets s !! j)
    ∧ Comments s' = Comments s ++ [c]
    ∧ Comment.ticket_ID c = ticketID ∧ Comment.isInternal c = false
    ∧ Comment.authorName c = JS.or_else agentName "Support Agent".
Proof.
  intros Ht Hst Hlen.
  destruct (resolveTicket_Ok env ticketID resolutionNote' agentName s t Ht Hst Hlen)
    as (s' & Heq & HT & _ & (c & Hc & Hc1 & Hc2 & Hc3) & _).
  eexists _, s', c. split; [exact Heq|]. rewrite HT. split_and!; try done.
  - by rewrite lookup_insert_eq.
  - intros j Hj. by rewrite lookup_insert_ne.
Qed.

Lemma resolveTicket_success_witness :
  Tickets Sample.opened !! "tkt-0001" = Some Sample.row_opened
  ∧ ¬ terminal (status Sample.row_opened)
  ∧ at_least 10 (Some "  Replaced the toner  ")
  ∧ ∃ t', (resolveTicket Sample.env_2024 "tkt-0001" (Some "  Replaced the toner  ") None
             Sample.opened).1 = Ok (Some t')
          ∧ status t' = "RESOLVED" ∧ resolutionNote t' = Some "  Replaced the toner  ".
Proof.
  assert (Hst : ¬ terminal (status Sample.row_opened)) by compute_done.
  assert (Hlen : at_least 10 (Some "  Replaced the toner  ")).
  { eexists. split; [reflexivity|]. vm_compute. lia. }
  split_and!; [exact opened_row | exact Hst | exact Hlen |].
  destruct (resolveTicket_success Sample.env_2024 "tkt-0001"
              (Some "  Replaced the toner  ") None Sample.opened Sample.row_opened
              opened_row Hst Hlen) as (t' & s' & c & Heq & _ & H1 & _ & H2 & _).
  exists t'. rewrite Heq. done.
Defined.

Lemma closeTicket_Ok env ticketID agentName s t :
  Tickets s !! ticketID = Some t →
  status t = "RESOLVED" →
  let t' := set_closedAt (Some (env_now env)) (set_status "CLOSED" t) in
  ∃ s', closeTicket env ticketID agentName s = (Ok (Some t'), s')
    ∧ Tickets s' = <[ticketID := t']> (Tickets s)
    ∧ Comments s' = Comments s
    ∧ length (AuditLogs s') = S (length (AuditLogs s)).
Proof.
  intros Ht Hst t'. unfold closeTicket. rewrite Ht.
  rewrite decide_False by (rewrite Hst; discriminate).
  rewrite decide_False by (intros H; by apply H).
  rewrite Tickets_logAudit, (Tickets_UPDATE_eq _ _ _ _ Ht).
  eexists. split; [reflexivity|]. split_and!; [|done|].
  - simpl. apply map_eq. intros j.
    rewrite lookup_alter, lookup_insert. case_decide; [by rewrite Ht | done].
  - simpl. rewrite length_app. simpl. lia.
Qed.

Lemma reopenTicket_Ok env ticketID reason agentName s t :
  Tickets s !! ticketID = Some t →
  terminal (status t) →
  at_least 5 reason →
  let t' := set_resolutionNote None
              (set_closedAt None (set_resolvedAt None (set_status "OPEN" t))) in
  ∃ s', reopenTicket env ticketID reason agentName s = (Ok (Some t'), s')
    ∧ Tickets s' = <[ticketID := t']> (Tickets s)
    ∧ length (Comments s') = S (length (Comments s))
    ∧ length (AuditLogs s') = S (length (AuditLogs s)).
Proof.
  intros Ht Hst Hlen t'. apply too_short_false in Hlen; [|lia].
  unfold reopenTicket. rewrite Ht, decide_False, Hlen by (intros H; by apply H).
  rewrite Tickets_logAudit, Tickets_INSERT_Comments, (Tickets_UPDATE_eq _ _ _ _ Ht).
  eexists. split; [reflexivity|]. split_and!.
  - simpl. apply map_eq. intros j.
    rewrite lookup_alter, lookup_insert. case_decide; [by rewrite Ht | done].
  - simpl. rewrite length_app. simpl. lia.
  - simpl. rewrite length_app. simpl. lia.
Qed.

(** X9: a ticket that was just resolved cannot be resolved again: the
    second resolveTicket, whatever its note, agent and time, is answered
    with one ConflictError saying the ticket is already resolved, and
    writes nothing. *)
Theorem resolveTicket_twice env env' ticketID note note' agentName agentName' s t :
  Tickets s !! ticketID = Some t →
  ¬ terminal (status t) →
  at_least 10 note →
  ∃ s1, (resolveTicket env ticketID note agentName s).2 = s1
    ∧ resolveTicket env' ticketID note' agentName' s1
      = (Rejected [ {| code := 409; message := "Ticket is already resolved" |} ], s1).
Proof.
  intros Ht Hst Hlen.
  destruct (resolveTicket_Ok env ticketID note agentName s t Ht Hst Hlen)
    as (s1 & Heq & HT & _).
  exists s1. rewrite Heq. split; [done|].
  unfold resolveTicket. rewrite HT, lookup_insert_eq.
  rewrite decide_True by compute_done. done.
Qed.

Lemma resolveTicket_twice_witness :
  Tickets Sample.opened !! "tkt-0001" = Some Sample.row_opened
  ∧ ¬ terminal (status Sample.row_opened)
  ∧ at_least 10 (Some "Replaced the toner cartridge")
  ∧ resolveTicket Sample.env_2024 "tkt-0001"
      (Some "Trying to resolve again should fail properly") None Sample.resolved
    = (Rejected [ {| code := 409; message := "Ticket is already resolved" |} ],
       Sample.resolved).
Proof.
  assert (Hst : ¬ terminal (status Sample.row_opened)) by compute_done.
  assert (Hlen : at_least 10 (Some "Replaced the toner cartridge")).
  { eexists. split; [reflexivity|]. vm_compute. lia. }
  split_and!; [exact opened_row | exact Hst | exact Hlen |].
  destruct (resolveTicket_twice Sample.env_2023 Sample.env_2024 "tkt-0001"
              (Some "Replaced the toner cartridge")
              (Some "Trying to resolve again should fail properly")
              (Some "Mike Chen") None Sample.opened Sample.row_opened
              opened_row Hst Hlen) as (s1 & <- & Heq).
  exact Heq.
Defined.

(** X10: resolveTicket, closeTicket and reopenTicket one after the other on
    a ticket that is neither RESOLVED nor CLOSED all succeed and bring the
    ticket back to OPEN with resolvedAt, closedAt and resolutionNote
    cleared and every other field as before; a ticket that was OPEN with
    these three fields empty is exactly the row it was. The round leaves
    three audit records and two comments more, and the other tickets as
    they were. *)
Theorem resolve_close_reopen env1 env2 env3 ticketID note reason a1 a2 a3 s t :
  Tickets s !! ticketID = Some t →
  ¬ terminal (status t) →
  at_least 10 note →
  at_least 5 reason →
  let s3 := run [ (env1, ResolveTicket ticketID note a1);
                  (env2, CloseTicket ticketID a2);
                  (env3, ReopenTicket ticketID reason a3) ] s in
  Tickets s3
  = <[ticketID := set_resolutionNote None
                    (set_closedAt None (set_resolvedAt None (set_status "OPEN" t)))]>
      (Tickets s)
  ∧ (status t = "OPEN" → resolvedAt t = None → closedAt t = None →
     resolutionNote t = None → Tickets s3 = Tickets s)
  ∧ length (AuditLogs s3) = (length (AuditLogs s) + 3)%nat
  ∧ length (Comments s3) = (length (Comments s) + 2)%nat.
Proof.
  intros Ht Hst Hnote Hreason. simpl.
  destruct (resolveTicket_Ok env1 ticketID note a1 s t Ht Hst Hnote)
    as (s1 & -> & HT1 & _ & (c & Hc1 & _) & Ha1). simpl.
  assert (Ht1 : Tickets s1 !! ticketID
                = Some (set_resolutionNote note
                          (set_resolvedAt (Some (env_now env1)) (set_status "RESOLVED" t))))
    by (by rewrite HT1, lookup_insert_eq).
  destruct (closeTicket_Ok env2 ticketID a2 s1 _ Ht1 eq_refl)
    as (s2 & -> & HT2 & Hc2 & Ha2). simpl.
  assert (Ht2 : Tickets s2 !! ticketID
                = Some (set_closedAt (Some (env_now env2))
                          (set_status "CLOSED"
                             (set_resolutionNote note
                                (set_resolvedAt (Some (env_now env1))
                                   (set_status "RESOLVED" t))))))
    by (by rewrite HT2, lookup_insert_eq).
  destruct (reopenTicket_Ok env3 ticketID reason a3 s2 _ Ht2) as (s3 & -> & HT3 & Hc3 & Ha3);
    [compute_done | done |]. simpl.
  assert (HT : Tickets s3
               = <[ticketID := set_resolutionNote None
                     (set_closedAt None (set_resolvedAt None (set_status "OPEN" t)))]>
                   (Tickets s)).
  { rewrite HT3, HT2, HT1, !insert_insert_eq. done. }
  split_and!.
  - exact HT.
  - intros H1 H2 H3 H4. rewrite HT. apply insert_id. rewrite Ht. f_equal.
    destruct t; simpl in *; by subst.
  - lia.
  - rewrite Hc3, Hc2, Hc1, length_app. simpl. lia.
Qed.

Lemma resolve_close_reopen_witness :
  Tickets Sample.opened !! "tkt-0001" = Some Sample.row_opened
  ∧ ¬ terminal (status Sample.row_opened)
  ∧ at_least 10 (Some "Replaced the toner cartridge")
  ∧ at_least 5 (Some "Jammed again")
  ∧ Tickets (run [ (Sample.env_2023, Sample.resolve_1);
                   (Sample.env_2024, Sample.close_1);
                   (Sample.env_2024, ReopenTicket "tkt-0001" (Some "Jammed again") None) ]
               Sample.opened)
    = Tickets Sample.opened.
Proof.
  assert (Hst : ¬ terminal (status Sample.row_opened)) by compute_done.
  assert (Hnote : at_least 10 (Some "Replaced the toner cartridge")).
  { eexists. split; [reflexivity|]. vm_compute. lia. }
  assert (Hreason : at_least 5 (Some "Jammed again")).
  { eexists. split; [reflexivity|]. vm_compute. lia. }
  split_and!; [exact opened_row | exact Hst | exact Hnote | exact Hreason |].
  destruct (resolve_close_reopen Sample.env_2023 Sample.env_2024 Sample.env_2024
              "tkt-0001" (Some "Replaced the toner cartridge") (Some "Jammed again")
              (Some "Mike Chen") (Some "Emma Wilson") None
              Sample.opened Sample.row_opened opened_row Hst Hnote Hreason)
    as (_ & Hsame & _).
  by apply Hsame.
Defined.

(** ** Creating tickets *)

(** X11: the validation hook of create registers no error exactly when the
    title has at least 5 and the description at least 10 characters after
    trimming and a reporter is given; otherwise it registers one to three
    errors, each a ValidationError, and the create does not go through and
    writes nothing. A create that goes through had such a request and a
    fresh ID; it stores one row more, under the request's ID, with status
    OPEN whatever status the request carried, the request's priority or
    else MEDIUM, and the request's own resolvedAt, closedAt and
    resolutionNote. *)
Theorem create_spec env d s :
  (validate_create d = [] ↔ creatable d)
  ∧ (∀ r s', create env d s = (Ok r, s') →
       creatable d ∧ Tickets s !! d_ID d = None
       ∧ ∃ row, Tickets s' = <[d_ID d := row]> (Tickets s)
           ∧ size (Tickets s') = S (size (Tickets s))
           ∧ ID row = d_ID d ∧ status row = "OPEN"
           ∧ priority row = default (Some "MEDIUM") (d_priority d)
           ∧ resolvedAt row = d_resolvedAt d ∧ closedAt row = d_closedAt d
           ∧ resolutionNote row = d_resolutionNote d)
  ∧ (¬ creatable d →
       (1 ≤ length (validate_create d) ≤ 3)%nat
       ∧ Forall ValidationError (validate_create d)
       ∧ is_Ok (create env d s).1 = false ∧ (create env d s).2 = s).
Proof.
  assert (Hiff : validate_create d = [] ↔ creatable d).
  { unfold creatable, validate_create.
    rewrite <- !too_short_false by lia.
    destruct (JS.too_short 5 (d_title d)), (JS.too_short 10 (d_description d)),
      (JS.truthy (d_reporter_ID d)); simpl; split; try done.
    all: try by intros (? & ? & ?). }
  split_and!.
  - exact Hiff.
  - intros r s' H. unfold create in H.
    destruct (validate_create d) eqn:Hv; [|done].
    split; [by apply Hiff|].
    destruct (Tickets s !! d_ID d) eqn:Hfresh; [done|]. split; [done|].
    injection H as <- <-. eexists. split; [reflexivity|].
    split_and!; try done. by apply map_size_insert_None.
  - intros Hnot. rewrite <- Hiff in Hnot. unfold create.
    split; [|split; [|split]].
    + unfold validate_create in *.
      destruct (JS.too_short 5 (d_title d)), (JS.too_short 10 (d_description d)),
        (JS.truthy (d_reporter_ID d)); simpl in *; try lia; done.
    + unfold validate_create.
      destruct (JS.too_short 5 (d_title d)), (JS.too_short 10 (d_description d)),
        (JS.truthy (d_reporter_ID d)); simpl; repeat constructor; done.
    + destruct (validate_create d); [by destruct Hnot | done].
    + destruct (validate_create d); [by destruct Hnot | done].
Qed.

Lemma create_spec_witness :
  let d := Sample.printer "tkt-0001" None in
  let r := create Sample.env_2023 d Sample.base in
  r = (Ok (Some (new_ticket Sample.env_2023 d Sample.base)), r.2)
  ∧ creatable d
  ∧ ∃ row, Tickets r.2 = <["tkt-0001" := row]> (Tickets Sample.base)
           ∧ status row = "OPEN" ∧ priority row = Some "MEDIUM".
Proof.
  intros d r.
  assert (H : r = (Ok (Some (new_ticket Sample.env_2023 d Sample.base)), r.2))
    by (vm_compute; reflexivity).
  split; [exact H|].
  destruct (create_spec Sample.env_2023 d Sample.base) as (_ & Hok & _).
  destruct (Hok _ _ H) as (Hc & _ & row & HT & _ & _ & Hst & Hp & _).
  split; [exact Hc|]. exists row. by split_and!.
Defined.

(** X12: the due date of a created ticket. With a category that exists
    and has a non-zero SLA, it is the clock advanced by the SLA hours,
    whatever due date the request carried. Without category, with an
    unknown category, and with an SLA that is missing or 0, no due date is
    computed: the ticket keeps the request's own. *)
Theorem create_dueDate env d s t s' :
  create env d s = (Ok (Some t), s') →
  (∀ c cat h, d_category_ID d = Some c → c ≠ "" →
     Categories s !! c = Some cat → Category.slaHours cat = Some h → h ≠ 0%Z →
     dueDate t = Some (env_plusHours env h))
  ∧ (d_category_ID d = None → dueDate t = d_dueDate d)
  ∧ (∀ c, d_category_ID d = Some c → Categories s !! c = None →
     dueDate t = d_dueDate d)
  ∧ (∀ c cat, d_category_ID d = Some c → Categories s !! c = Some cat →
     Category.slaHours cat = None ∨ Category.slaHours cat = Some 0%Z →
     dueDate t = d_dueDate d).
Proof.
  intros (_ & [= ->] & _)%create_Ok. simpl. unfold new_dueDate. split_and!.
  - intros c cat h -> Hc -> -> Hh.
    destruct (String.eqb_spec c ""); [done|].
    destruct (Z.eqb_spec h 0); done.
  - by intros ->.
  - intros c -> ->. by destruct (String.eqb c "").
  - intros c cat -> -> [-> | ->]; by destruct (String.eqb c "").
Qed.

Lemma create_dueDate_witness :
  let d := Sample.printer "tkt-0001" None in
  let r := create Sample.env_2023 d Sample.base in
  r = (Ok (Some (new_ticket Sample.env_2023 d Sample.base)), r.2)
  ∧ dueDate (new_ticket Sample.env_2023 d Sample.base)
    = Some (1690000000000 + 24 * 3600000)%Z.
Proof.
  intros d r.
  assert (H : r = (Ok (Some (new_ticket Sample.env_2023 d Sample.base)), r.2))
    by (vm_compute; reflexivity).
  split; [exact H|].
  destruct (create_dueDate Sample.env_2023 d Sample.base _ _ H) as (Hsla & _).
  apply (Hsla "cat-0001" {| Category.slaHours := Some 24%Z |}); try done.
Defined.

(** ** Escalating more than once *)

Lemma escalateTicket_Ok env ticketID reason agentName s t :
  Tickets s !! ticketID = Some t →
  ¬ terminal (status t) →
  JS.interpolate (priority t) ∉ Object_prototype →
  let t' := set_status "IN_PROGRESS" (set_priority (Some (spec_next (priority t))) t) in
  ∃ s', escalateTicket env ticketID reason agentName s = (Ok (Some t'), s')
    ∧ Tickets s' = <[ticketID := t']> (Tickets s).
Proof.
  intros Ht Hst Hp t'. unfold escalateTicket. rewrite Ht, decide_False by done.
  rewrite (_escalatePriority_spec_next _ Hp). simpl bind_priority. cbv iota beta.
  rewrite Tickets_logAudit, Tickets_INSERT_Comments, (Tickets_UPDATE_eq _ _ _ _ Ht).
  eexists. split; [reflexivity|].
  simpl. apply map_eq. intros j.
  rewrite lookup_alter, lookup_insert. case_decide; [by rewrite Ht | done].
Qed.

Lemma spec_next_levels p : spec_next p ∈ ["MEDIUM"; "HIGH"; "CRITICAL"].
Proof.
  destruct p as [p|]; simpl; [|compute_done].
  repeat (case_match; [compute_done|]). compute_done.
Qed.

(** X13: three escalations always end at CRITICAL. On an existing ticket
    that is neither RESOLVED nor CLOSED and whose priority is not the name
    of an inherited member, three escalateTicket requests in a row all
    succeed, and the ticket then has priority CRITICAL and status
    IN_PROGRESS, from whatever priority it started (LOW, MEDIUM, HIGH,
    CRITICAL, none, or an unknown string). *)
Theorem escalate_thrice env1 env2 env3 ticketID r1 r2 r3 a1 a2 a3 s t :
  Tickets s !! ticketID = Some t →
  ¬ terminal (status t) →
  JS.interpolate (priority t) ∉ Object_prototype →
  let s3 := run [ (env1, EscalateTicket ticketID r1 a1);
                  (env2, EscalateTicket ticketID r2 a2);
                  (env3, EscalateTicket ticketID r3 a3) ] s in
  successes [ (env1, EscalateTicket ticketID r1 a1);
              (env2, EscalateTicket ticketID r2 a2);
              (env3, EscalateTicket ticketID r3 a3) ] s = 3%nat
  ∧ Tickets s3
    = <[ticketID := set_status "IN_PROGRESS" (set_priority (Some "CRITICAL") t)]>
        (Tickets s).
Proof.
  intros Ht Hst Hp. simpl.
  destruct (escalateTicket_Ok env1 ticketID r1 a1 s t Ht Hst Hp) as (s1 & -> & HT1).
  simpl.
  pose proof (spec_next_levels (priority t)) as Hl1.
  set (p1 := spec_next (priority t)) in *.
  set (t1 := set_status "IN_PROGRESS" (set_priority (Some p1) t)) in *.
  assert (Ht1 : Tickets s1 !! ticketID = Some t1) by (by rewrite HT1, lookup_insert_eq).
  assert (Hp1 : JS.interpolate (priority t1) ∉ Object_prototype).
  { simpl. rewrite !elem_of_cons, elem_of_nil in Hl1.
    destruct Hl1 as [->|[->|[->|[]]]]; compute_done. }
  destruct (escalateTicket_Ok env2 ticketID r2 a2 s1 t1 Ht1) as (s2 & -> & HT2);
    [compute_done | done |]. simpl.
  pose proof (spec_next_levels (Some p1)) as Hl2.
  set (p2 := spec_next (Some p1)) in *.
  set (t2 := set_status "IN_PROGRESS" (set_priority (Some p2) t1)) in *.
  assert (Ht2 : Tickets s2 !! ticketID = Some t2) by (by rewrite HT2, lookup_insert_eq).
  assert (Hp2 : JS.interpolate (priority t2) ∉ Object_prototype).
  { simpl. rewrite !elem_of_cons, elem_of_nil in Hl2.
    destruct Hl2 as [->|[->|[->|[]]]]; compute_done. }
  destruct (escalateTicket_Ok env3 ticketID r3 a3 s2 t2 Ht2) as (s3 & -> & HT3);
    [compute_done | done |]. simpl.
  split; [done|].
  rewrite HT3, HT2, HT1, !insert_insert_eq. f_equal.
  assert (Hcrit : spec_next (Some p2) = "CRITICAL").
  { unfold p2. rewrite !elem_of_cons, elem_of_nil in Hl1.
    destruct Hl1 as [->|[->|[->|[]]]]; done. }
  change (priority t2) with (Some p2). by rewrite Hcrit.
Qed.

Lemma escalate_thrice_witness :
  Tickets Sample.opened !! "tkt-0001" = Some Sample.row_opened
  ∧ ¬ terminal (status Sample.row_opened)
  ∧ (JS.interpolate (priority Sample.row_opened) ∉ Object_prototype)
  ∧ Tickets (run [ (Sample.env_2023, EscalateTicket "tkt-0001" None None);
                   (Sample.env_2023, EscalateTicket "tkt-0001" None None);
                   (Sample.env_2024, EscalateTicket "tkt-0001" None None) ]
               Sample.opened)
    = <["tkt-0001" := set_status "IN_PROGRESS"
                        (set_priority (Some "CRITICAL") Sample.row_opened)]>
        (Tickets Sample.opened).
Proof.
  assert (Hst : ¬ terminal (status Sample.row_opened)) by compute_done.
  assert (Hp : JS.interpolate (priority Sample.row_opened) ∉ Object_prototype)
    by compute_done.
  split_and!; [exact opened_row | exact Hst | exact Hp |].
  exact (proj2 (escalate_thrice Sample.env_2023 Sample.env_2023 Sample.env_2024
                  "tkt-0001" None None None None None None
                  Sample.opened Sample.row_opened opened_row Hst Hp)).
Defined.

(** ** Statuses and resolution notes along a sequence of requests *)

Lemma alter_rows (P : string → Ticket → Prop) (m : gmap string Ticket) id set t :
  m !! id = Some t → P id (set t) →
  (∀ i t0, m !! i = Some t0 → P i t0) →
  ∀ i t0, alter set id m !! i = Some t0 → P i t0.
Proof.
  intros Ht Hset Hm i t0. rewrite lookup_alter. case_decide as Hi.
  - subst i. rewrite Ht. by intros [= <-].
  - apply Hm.
Qed.

Lemma insert_rows (P : string → Ticket → Prop) (m : gmap string Ticket) id t :
  P id t →
  (∀ i t0, m !! i = Some t0 → P i t0) →
  ∀ i t0, <[id := t]> m !! i = Some t0 → P i t0.
Proof.
  intros Ht Hm i t0. rewrite lookup_insert. case_decide.
  - subst i. by intros [= <-].
  - apply Hm.
Qed.

(** The rows of the store after one request, from the rows before. *)
Ltac step_rows Hs :=
  match goal with
  | |- ∀ i t, Tickets (step _ ?op _).2 !! i = Some t → _ =>
      destruct op; simpl;
      [ unfold create | unfold assignAgent | unfold changePriority
      | unfold resolveTicket | unfold closeTicket | unfold escalateTicket
      | unfold reopenTicket ];
      repeat case_match; try exact Hs; simpl;
      first [ eapply alter_rows; [eassumption | | exact Hs]
            | eapply insert_rows; [ | exact Hs] ]
  end.

Lemma step_status_origin s0 env op s :
  (∀ i t, Tickets s !! i = Some t → status_origin s0 i t) →
  ∀ i t, Tickets (step env op s).2 !! i = Some t → status_origin s0 i t.
Proof.
  intros Hs. step_rows Hs;
    first [ left; compute_done
          | match goal with H : Tickets s !! _ = Some ?t |- _ => exact (Hs _ t H) end ].
Qed.

(** X14: the lifecycle handlers write four statuses only: OPEN,
    IN_PROGRESS, RESOLVED and CLOSED. After any sequence of requests the
    status of a ticket is one of these, or the status the ticket had before
    the sequence; ON_HOLD, in particular, is never produced. *)
Theorem statuses_written reqs s i t :
  Tickets (run reqs s) !! i = Some t →
  status_origin s i t.
Proof.
  assert (H : ∀ s1, (∀ i t, Tickets s1 !! i = Some t → status_origin s i t) →
                    ∀ i t, Tickets (run reqs s1) !! i = Some t → status_origin s i t).
  { induction reqs as [|[env op] reqs IH]; intros s1 Hs1; simpl; [done|].
    by apply IH, step_status_origin. }
  apply H. intros j t0 Hj. right. eauto.
Qed.

Lemma statuses_written_witness :
  Tickets Sample.closed !! "tkt-0001" = Some Sample.row_closed
  ∧ status_origin Sample.base "tkt-0001" Sample.row_closed.
Proof.
  split; [exact closed_row|].
  exact (statuses_written
           [ (Sample.env_2023, Sample.create_1); (Sample.env_2023, Sample.resolve_1);
             (Sample.env_2023, Sample.close_1) ] Sample.base _ _ closed_row).
Defined.

Lemma step_noted env op s :
  (∀ i t, Tickets s !! i = Some t → noted t) →
  ∀ i t, Tickets (step env op s).2 !! i = Some t → noted t.
Proof.
  intros Hs. pose (P := λ (_ : string) t, noted t).
  change (∀ i t, Tickets (step env op s).2 !! i = Some t → P i t).
  change (∀ i t, Tickets s !! i = Some t → P i t) in Hs.
  step_rows Hs; unfold P, noted; simpl.
  all: try (intros Hterm; exfalso; revert Hterm; compute_done).
  all: try match goal with
           | H : Tickets _ !! _ = Some ?t |- _ => by apply (Hs _ t H)
           end.
  - intros _. apply too_short_false; [lia | done].
  - intros _.
    match goal with H : Tickets _ !! _ = Some ?t |- _ => apply (Hs _ t H) end.
    match goal with H : ¬ status _ ≠ "RESOLVED" |- _ =>
      destruct (decide (status t = "RESOLVED")) as [->|]; [compute_done | done] end.
Qed.

(** X15: when every RESOLVED or CLOSED ticket carries a resolution note of
    at least 10 characters after trimming, this is still so after every
    sequence of lifecycle requests: resolveTicket stores such a note,
    closeTicket and changePriority keep it, and the requests that clear or
    may lack it leave the ticket OPEN or IN_PROGRESS. *)
Theorem notes_kept reqs s :
  (∀ i t, Tickets s !! i = Some t → noted t) →
  ∀ i t, Tickets (run reqs s) !! i = Some t → noted t.
Proof.
  revert s. induction reqs as [|[env op] reqs IH]; intros s Hs; simpl; [done|].
  by apply IH, step_noted.
Qed.

Lemma notes_kept_witness :
  (∀ i t, Tickets Sample.base !! i = Some t → noted t)
  ∧ noted Sample.row_closed.
Proof.
  assert (H : ∀ i t, Tickets Sample.base !! i = Some t → noted t).
  { intros i t Hi. simpl in Hi. rewrite lookup_empty in Hi. discriminate Hi. }
  split; [exact H|].
  exact (notes_kept
           [ (Sample.env_2023, Sample.create_1); (Sample.env_2023, Sample.resolve_1);
             (Sample.env_2023, Sample.close_1) ] Sample.base H _ _ closed_row).
Defined.

(** ** The read hook and the overdue tickets *)

Lemma flag_overdue_fields now t :
  set_isOverdue (isOverdue (flag_overdue now t)) t = flag_overdue now t.
Proof. unfold flag_overdue. case_decide; [done | by destruct t]. Qed.

Lemma past_due_flag now t : past_due now (flag_overdue now t) ↔ past_due now t.
Proof. unfold flag_overdue. by case_decide. Qed.

Lemma past_due_later now now' t : (now ≤ now')%Z → past_due now t → past_due now' t.
Proof.
  unfold past_due. intros Hle. destruct (dueDate t); [|done].
  intros [Hd Hst]. split; [lia | done].
Qed.

(** X16: the read hook returns the tickets in the same order and changes
    no field but isOverdue. A ticket comes out flagged exactly when its
    due date lies before now and it is neither RESOLVED nor CLOSED, or it
    was already flagged: the hook never clears a flag, so a ticket without
    due date, or a RESOLVED or CLOSED one, comes out as it went in. A
    ticket flagged at one time is flagged at every later time, and running
    the hook twice changes nothing more. *)
Theorem after_READ_spec env tickets :
  length (after_READ env tickets) = length tickets
  ∧ (∀ k t, tickets !! k = Some t →
       ∃ t', after_READ env tickets !! k = Some t'
         ∧ set_isOverdue (isOverdue t') t = t'
         ∧ (isOverdue t' = Some true
            ↔ past_due (env_now env) t ∨ isOverdue t = Some true)
         ∧ (¬ past_due (env_now env) t → t' = t)
         ∧ (∀ env', (env_now env ≤ env_now env')%Z →
              isOverdue t' = Some true →
              isOverdue (flag_overdue (env_now env') t) = Some true))
  ∧ after_READ env (after_READ env tickets) = after_READ env tickets.
Proof.
  unfold after_READ. split_and!.
  - by rewrite length_fmap.
  - intros k t Hk. exists (flag_overdue (env_now env) t).
    rewrite list_lookup_fmap, Hk. split_and!.
    + done.
    + apply flag_overdue_fields.
    + unfold flag_overdue. case_decide; simpl; tauto.
    + intros Hn. unfold flag_overdue. by rewrite decide_False.
    + intros env' Hle. unfold flag_overdue at 1. case_decide as Hpd.
      * intros _. unfold flag_overdue.
        by rewrite decide_True by (by eapply past_due_later).
      * intros Hf. unfold flag_overdue. by case_decide.
  - rewrite <- list_fmap_compose. apply list_fmap_ext. intros _ t _. simpl.
    unfold flag_overdue at 1. case_decide as Hpd; [|done].
    rewrite past_due_flag in Hpd. unfold flag_overdue. rewrite decide_True by done.
    by destruct t.
Qed.

Lemma sql_compare_refl a : sql_compare a a = Eq.
Proof.
  destruct a as [a|]; simpl; [|done].
  induction a as [|c a IH]; simpl; [done|].
  rewrite IH. unfold Ascii.compare. by rewrite N.compare_refl.
Qed.

#[export] Instance order_by_priority_total : Total order_by_priority.
Proof.
  intros t1 t2. unfold order_by_priority.
  rewrite (sql_compare_antisym (priority t2)).
  destruct (sql_compare (priority t1) (priority t2)); simpl; [by left | by right | by left].
Qed.

(** X17: getOverdueTickets returns exactly the tickets of the store that
    are neither RESOLVED nor CLOSED and whose due date, as stored text,
    sorts before the text of now (a ticket without due date is never
    returned), ordered by the priority strings, greatest first; the
    dashboard counts as many. A returned ticket whose due date is also the
    earlier instant is flagged by the read hook at the same time. The
    order of the texts is not the order of the instants: a due date
    2147483647 hours ahead, in the year 247007, sorts before now. *)
Theorem getOverdueTickets_spec env todayStart s :
  (∀ t, t ∈ getOverdueTickets env s
        ↔ (∃ k, Tickets s !! k = Some t)
          ∧ ∃ due, dueDate t = Some due ∧ ISO.before due (env_now env)
                   ∧ status t ≠ "RESOLVED" ∧ status t ≠ "CLOSED")
  ∧ Sorted order_by_priority (getOverdueTickets env s)
  ∧ overdueTickets (getDashboardStats env todayStart s)
    = length (getOverdueTickets env s)
  ∧ (∀ t due, t ∈ getOverdueTickets env s → dueDate t = Some due →
       (due < env_now env)%Z →
       isOverdue (flag_overdue (env_now env) t) = Some true)
  ∧ ISO.before (1710000000000 + 2147483647 * 3600000)%Z 1710000000000%Z.
Proof.
  assert (Hin : ∀ t, t ∈ getOverdueTickets env s
                     ↔ (∃ k, Tickets s !! k = Some t) ∧ overdue (env_now env) t).
  { intros t. unfold getOverdueTickets.
    rewrite merge_sort_Permutation, list_elem_of_filter, elem_of_rows. tauto. }
  split_and!.
  - intros t. rewrite Hin. unfold overdue, terminal.
    destruct (dueDate t) as [due|].
    + rewrite !elem_of_cons, elem_of_nil. split.
      * intros (Hk & Hd & Hst). split; [done|]. exists due. split_and!; [done|done| |]; tauto.
      * intros (Hk & due' & [= <-] & Hd & H1 & H2). split; [done|]. split; [done|]. tauto.
    + split; [tauto|]. by intros (_ & due & ? & _).
  - apply (Sorted_merge_sort order_by_priority).
  - simpl. unfold getOverdueTickets. by rewrite merge_sort_Permutation.
  - intros t due (_ & Hov)%Hin Hdue Hlt. unfold flag_overdue.
    rewrite decide_True; [done|]. unfold past_due, overdue in *.
    rewrite Hdue in *. split; [done | tauto].
  - compute_done.
Qed.

(** ** The dashboard *)

Lemma length_rows s : length (rows s) = size (Tickets s).
Proof. unfold rows. by rewrite length_fmap, length_map_to_list. Qed.

Lemma length_filter_disjoint {A} (P Q R : A → Prop)
    `{∀ x, Decision (P x)} `{∀ x, Decision (Q x)} `{∀ x, Decision (R x)} (l : list A) :
  (∀ x, P x → Q x → False) → (∀ x, P x → R x → False) → (∀ x, Q x → R x → False) →
  (length (filter P l) + length (filter Q l) + length (filter R l) ≤ length l)%nat.
Proof.
  intros HPQ HPR HQR. induction l as [|x l IH]; [done|].
  rewrite !filter_cons.
  destruct (decide (P x)), (decide (Q x)), (decide (R x)); simpl; try lia;
    exfalso; eauto.
Qed.

Lemma length_filter_disjoint2 {A} (P Q : A → Prop)
    `{∀ x, Decision (P x)} `{∀ x, Decision (Q x)} (l : list A) :
  (∀ x, P x → Q x → False) →
  (length (filter P l) + length (filter Q l) ≤ length l)%nat.
Proof.
  intros HPQ. induction l as [|x l IH]; [done|].
  rewrite !filter_cons.
  destruct (decide (P x)), (decide (Q x)); simpl; try lia; exfalso; eauto.
Qed.

(** X18: the numbers of the dashboard. totalTickets is the number of
    tickets in the store. The OPEN, the IN_PROGRESS and the
    resolved-today tickets are disjoint, as are the overdue and the
    resolved-today ones, so these sums never exceed the total; neither do
    the critical ones. A ticket resolved today and closed since is no
    longer counted as resolved today. *)
Theorem dashboard_bounds env todayStart s :
  let stats := getDashboardStats env todayStart s in
  totalTickets stats = size (Tickets s)
  ∧ (openTickets stats + inProgressTickets stats + resolvedToday stats
     ≤ totalTickets stats)%nat
  ∧ (overdueTickets stats + resolvedToday stats ≤ totalTickets stats)%nat
  ∧ (criticalTickets stats ≤ totalTickets stats)%nat
  ∧ (∀ t, t ∈ filter (resolved_since todayStart) (rows s) → status t ≠ "CLOSED").
Proof.
  simpl. split_and!.
  - apply length_rows.
  - apply length_filter_disjoint.
    + intros t H1 H2. rewrite H1 in H2. discriminate H2.
    + intros t H1 [H2 _]. rewrite H1 in H2. discriminate H2.
    + intros t H1 [H2 _]. rewrite H1 in H2. discriminate H2.
  - apply length_filter_disjoint2.
    intros t Hpd [Hst _]. unfold overdue in Hpd.
    destruct (dueDate t); [|done]. destruct Hpd as [_ Hn]. apply Hn.
    rewrite Hst. compute_done.
  - apply length_filter.
  - intros t [[Hst _] _]%list_elem_of_filter. by rewrite Hst.
Qed.

Lemma rows_insert s s' i t :
  Tickets s !! i = None → Tickets s' = <[i := t]> (Tickets s) →
  rows s' ≡ₚ t :: rows s.
Proof.
  intros Hfresh HT. unfold rows. rewrite HT.
  by rewrite (map_to_list_insert _ _ _ Hfresh).
Qed.

Lemma count_insert (P : Ticket → Prop) `{∀ t, Decision (P t)} s s' i t :
  Tickets s !! i = None → Tickets s' = <[i := t]> (Tickets s) →
  length (filter P (rows s'))
  = ((if decide (P t) then 1 else 0) + length (filter P (rows s)))%nat.
Proof.
  intros Hfresh HT. rewrite (rows_insert s s' i t Hfresh HT), filter_cons.
  by destruct (decide (P t)).
Qed.

(** X19: a create that succeeds shows on the dashboard as one ticket more
    in total and one OPEN ticket more; the IN_PROGRESS and the
    resolved-today counts stay, and the critical count goes up by one
    exactly when the new ticket is CRITICAL. *)
Theorem create_counted env env' todayStart d s t s' :
  create env d s = (Ok (Some t), s') →
  let before := getDashboardStats env' todayStart s in
  let after := getDashboardStats env' todayStart s' in
  totalTickets after = S (totalTickets before)
  ∧ openTickets after = S (openTickets before)
  ∧ inProgressTickets after = inProgressTickets before
  ∧ resolvedToday after = resolvedToday before
  ∧ criticalTickets after
    = ((if decide (priority t = Some "CRITICAL") then 1 else 0)
       + criticalTickets before)%nat.
Proof.
  intros (Hfresh & [= ->] & HT)%create_Ok. simpl.
  pose proof (rows_insert s s' _ _ Hfresh HT) as Hrows.
  split_and!.
  - by rewrite Hrows.
  - by rewrite (count_insert _ s s' _ _ Hfresh HT), decide_True.
  - by rewrite (count_insert _ s s' _ _ Hfresh HT), decide_False.
  - rewrite (count_insert _ s s' _ _ Hfresh HT), decide_False; [done|].
    by intros [Hst _].
  - rewrite (count_insert _ s s' _ _ Hfresh HT).
    unfold critical_open. simpl.
    destruct (decide (default (Some "MEDIUM") (d_priority d) = Some "CRITICAL")).
    + by rewrite decide_True.
    + rewrite decide_False; [done | tauto].
Qed.

Lemma create_counted_witness :
  let d := Sample.printer "tkt-0002" (Some (Some "CRITICAL")) in
  let r := create Sample.env_2024 d Sample.closed in
  r = (Ok (Some (new_ticket Sample.env_2024 d Sample.closed)), r.2)
  ∧ totalTickets (getDashboardStats Sample.env_2024 1709900000000%Z r.2)
    = S (totalTickets (getDashboardStats Sample.env_2024 1709900000000%Z Sample.closed)).
Proof.
  intros d r.
  assert (H : r = (Ok (Some (new_ticket Sample.env_2024 d Sample.closed)), r.2))
    by (vm_compute; reflexivity).
  split; [exact H|].
  exact (proj1 (create_counted Sample.env_2024 Sample.env_2024 1709900000000%Z
                  d Sample.closed _ _ H)).
Defined.

(** ** Ticket numbers of successive creates *)

Lemma step_action_size env op s :
  is_action op = true → size (Tickets (step env op s).2) = size (Tickets s).
Proof.
  intros Hop.
  destruct (step_writes env op s) as [[_ ->]|[_ (_ & _ & _ & _ & Hw)]]; [done|].
  destruct Hw as [(d & -> & _)|(set & _ & -> & _)]; [done|].
  by rewrite <- !size_dom, dom_alter_L.
Qed.

Lemma run_actions_size acts s :
  Forall (λ r : Env * Op, is_action r.2 = true) acts →
  size (Tickets (run acts s)) = size (Tickets s).
Proof.
  revert s. induction acts as [|[env op] acts IH]; intros s Hacts; simpl; [done|].
  apply Forall_cons in Hacts as [Hop Hacts].
  by rewrite IH, step_action_size.
Qed.

(** X20: two creates that succeed get consecutive sequence numbers,
    whatever actions are served between them: the actions neither add nor
    remove tickets, so the count the second number is made from is one
    more than the first. *)
Theorem consecutive_numbers env d s t s1 acts env' d' t' s2 :
  create env d s = (Ok (Some t), s1) →
  Forall (λ r : Env * Op, is_action r.2 = true) acts →
  create env' d' (run acts s1) = (Ok (Some t'), s2) →
  ∃ seq seq' n,
    ticketNumber t = Some ("TKT-" +:+ JS.String_of_Z (env_year env) +:+ "-" +:+ seq)
    ∧ ticketNumber t' = Some ("TKT-" +:+ JS.String_of_Z (env_year env') +:+ "-" +:+ seq')
    ∧ JS.N_of_digits seq = Some n
    ∧ JS.N_of_digits seq' = Some (n + 1)%N.
Proof.
  intros (Hfresh & [= ->] & HT)%create_Ok Hacts (_ & [= ->] & _)%create_Ok.
  exists (next_seq s), (next_seq (run acts s1)), (N.of_nat (size (Tickets s)) + 1)%N.
  split_and!; [done | done | |].
  - apply N_of_digits_padStart. lia.
  - unfold next_seq. rewrite N_of_digits_padStart by lia. f_equal.
    rewrite (run_actions_size _ _ Hacts), HT, (map_size_insert_None _ _ _ Hfresh). lia.
Qed.

Lemma consecutive_numbers_witness :
  let d := Sample.printer "tkt-0001" None in
  let d' := Sample.printer "tkt-0002" None in
  let acts := [ (Sample.env_2023, Sample.resolve_1); (Sample.env_2023, Sample.close_1) ] in
  let r := create Sample.env_2023 d Sample.base in
  let r' := create Sample.env_2024 d' (run acts r.2) in
  r = (Ok (Some (new_ticket Sample.env_2023 d Sample.base)), r.2)
  ∧ Forall (λ r : Env * Op, is_action r.2 = true) acts
  ∧ r' = (Ok (Some (new_ticket Sample.env_2024 d' (run acts r.2))), r'.2)
  ∧ ∃ seq seq' n,
      ticketNumber (new_ticket Sample.env_2023 d Sample.base)
      = Some ("TKT-" +:+ JS.String_of_Z 2023 +:+ "-" +:+ seq)
      ∧ ticketNumber (new_ticket Sample.env_2024 d' (run acts r.2))
        = Some ("TKT-" +:+ JS.String_of_Z 2024 +:+ "-" +:+ seq')
      ∧ JS.N_of_digits seq = Some n
      ∧ JS.N_of_digits seq' = Some (n + 1)%N.
Proof.
  intros d d' acts r r'.
  assert (H : r = (Ok (Some (new_ticket Sample.env_2023 d Sample.base)), r.2))
    by (vm_compute; reflexivity).
  assert (Ha : Forall (λ r : Env * Op, is_action r.2 = true) acts)
    by (repeat constructor).
  assert (H' : r' = (Ok (Some (new_ticket Sample.env_2024 d' (run acts r.2))), r'.2))
    by (vm_compute; reflexivity).
  split_and!; [exact H | exact Ha | exact H' |].
  exact (consecutive_numbers _ _ _ _ _ _ _ _ _ _ H Ha H').
Defined.

(** ** The agent's list after an action *)

(** X21: after assignAgent succeeds, the ticket is in the list
    getAgentTickets returns for that agent, and in the list of no other
    agent. *)
Theorem assigned_then_listed env ticketID agentID remarks s t' s' :
  assignAgent env ticketID agentID remarks s = (Ok (Some t'), s') →
  t' ∈ getAgentTickets agentID s'
  ∧ ∀ other, other ≠ agentID → t' ∉ getAgentTickets other s'.
Proof.
  unfold assignAgent. intros H.
  destruct (Tickets s !! ticketID) as [t|] eqn:Ht; [|done].
  destruct (decide (status t = "CLOSED")); [done|].
  destruct (active_agent agentID s); [|done].
  rewrite Tickets_logAudit, (Tickets_UPDATE_eq _ _ _ _ Ht) in H.
  injection H as <- <-.
  split.
  - apply getAgentTickets_rows. split; [|done]. exists ticketID.
    by rewrite Tickets_logAudit, (Tickets_UPDATE_eq _ _ _ _ Ht).
  - intros other Hother (_ & Hag & _)%getAgentTickets_rows.
    simpl in Hag. congruence.
Qed.

Lemma assigned_then_listed_witness :
  let r := assignAgent Sample.env_2024 "tkt-0001" "agt-0001" None Sample.opened in
  let t' := set_status "IN_PROGRESS" (set_assignedTo_ID (Some "agt-0001") Sample.row_opened) in
  r = (Ok (Some t'), r.2) ∧ t' ∈ getAgentTickets "agt-0001" r.2.
Proof.
  intros r t'.
  assert (H : r = (Ok (Some t'), r.2)) by (vm_compute; reflexivity).
  split; [exact H|].
  exact (proj1 (assigned_then_listed _ _ _ _ _ _ _ H)).
Defined.

(** X22: after closeTicket succeeds on a store where every row is stored
    under its own ID, the ticket is in the list of no agent. *)
Theorem closed_then_unlisted env ticketID agentName s t' s' :
  closeTicket env ticketID agentName s = (Ok (Some t'), s') →
  keyed s →
  ∀ agentID u, u ∈ getAgentTickets agentID s' → ID u ≠ ticketID.
Proof.
  intros H Hkeyed agentID u ((k & Hk) & _ & Hst)%getAgentTickets_rows Hid.
  assert (Hs' : s' = (step env (CloseTicket ticketID agentName) s).2)
    by (simpl; by rewrite H).
  pose proof (step_keyed env (CloseTicket ticketID agentName) s Hkeyed) as Hkeyed'.
  rewrite <- Hs' in Hkeyed'.
  rewrite (Hkeyed' _ _ Hk) in Hid. subst k.
  unfold closeTicket in H.
  destruct (Tickets s !! ticketID) as [t|] eqn:Ht; [|done].
  destruct (decide (status t = "CLOSED")); [done|].
  destruct (decide (status t ≠ "RESOLVED")); [done|].
  rewrite Tickets_logAudit, (Tickets_UPDATE_eq _ _ _ _ Ht) in H.
  injection H as <- <-.
  rewrite Tickets_logAudit, (Tickets_UPDATE_eq _ _ _ _ Ht) in Hk.
  injection Hk as <-. by apply Hst.
Qed.

Lemma closed_then_unlisted_witness :
  let s := (assignAgent Sample.env_2023 "tkt-0001" "agt-0001" None Sample.resolved).2 in
  let s1 := (resolveTicket Sample.env_2023 "tkt-0001" (Some "Replaced the toner cartridge")
               None s).2 in
  let r := closeTicket Sample.env_2024 "tkt-0001" None s1 in
  r = (Ok (Tickets r.2 !! "tkt-0001"), r.2)
  ∧ is_Some (Tickets r.2 !! "tkt-0001")
  ∧ keyed s1
  ∧ ∀ u, u ∈ getAgentTickets "agt-0001" r.2 → ID u ≠ "tkt-0001".
Proof.
  intros s s1 r.
  assert (H : ∃ t', r = (Ok (Some t'), r.2)) by (eexists; vm_compute; reflexivity).
  assert (Hk : keyed s1).
  { apply (run_keyed
             [ (Sample.env_2023, Sample.create_1); (Sample.env_2023, Sample.resolve_1);
               (Sample.env_2023, AssignAgent "tkt-0001" "agt-0001" None);
               (Sample.env_2023, ResolveTicket "tkt-0001"
                                   (Some "Replaced the toner cartridge") None) ]
             Sample.base).
    intros i t Hi. simpl in Hi. rewrite lookup_empty in Hi. discriminate Hi. }
  split_and!; [vm_compute; reflexivity | vm_compute; by eexists | exact Hk |].
  destruct H as [t' H].
  exact (closed_then_unlisted _ _ _ _ _ _ H Hk "agt-0001").
Defined.

(** ** The system comments *)

(** X23: which requests leave a comment. create, assignAgent,
    changePriority and closeTicket write none. resolveTicket and
    reopenTicket append one public comment, escalateTicket one internal
    comment; each is about the ticket of the request, carries no e-mail
    address, and is signed by the agent name of the request or, without
    one, by Support Agent (resolveTicket) or System. *)
Theorem comments_written env op s r s' :
  step env op s = (Ok r, s') →
  match op with
  | Create _ | AssignAgent _ _ _ | ChangePriority _ _ _ | CloseTicket _ _ =>
      Comments s' = Comments s
  | ResolveTicket i _ a =>
      ∃ c, Comments s' = Comments s ++ [c] ∧ Comment.ticket_ID c = i
           ∧ Comment.isInternal c = false ∧ Comment.authorEmail c = ""
           ∧ Comment.authorName c = JS.or_else a "Support Agent"
  | EscalateTicket i _ a =>
      ∃ c, Comments s' = Comments s ++ [c] ∧ Comment.ticket_ID c = i
           ∧ Comment.isInternal c = true ∧ Comment.authorEmail c = ""
           ∧ Comment.authorName c = JS.or_else a "System"
  | ReopenTicket i _ a =>
      ∃ c, Comments s' = Comments s ++ [c] ∧ Comment.ticket_ID c = i
           ∧ Comment.isInternal c = false ∧ Comment.authorEmail c = ""
           ∧ Comment.authorName c = JS.or_else a "System"
  end.
Proof.
  destruct op; simpl;
    [ unfold create | unfold assignAgent | unfold changePriority
    | unfold resolveTicket | unfold closeTicket | unfold escalateTicket
    | unfold reopenTicket ];
    repeat case_match; intros [= <- <-]; first [ done | by eexists ].
Qed.

Lemma comments_written_witness :
  let op := EscalateTicket "tkt-0001" (Some "Key account") None in
  let r := step Sample.env_2024 op Sample.opened in
  r = (Ok (Tickets r.2 !! "tkt-0001"), r.2)
  ∧ ∃ c, Comments r.2 = Comments Sample.opened ++ [c]
         ∧ Comment.isInternal c = true ∧ Comment.authorName c = "System".
Proof.
  intros op r.
  assert (H : r = (Ok (Tickets r.2 !! "tkt-0001"), r.2)) by (vm_compute; reflexivity).
  split; [exact H|].
  destruct (comments_written _ op _ _ _ H) as (c & Hc & _ & Hi & _ & Ha).
  exists c. by split_and!.
Defined.

(** ** The content of an audit record *)

(** X24: the audit record of a successful request is labelled after the
    request. Its performer is System for a create; the remarks of an assignAgent and the reason of a
    changePriority, not a person, when these are given; and the agent name
    of the other actions; System stands in for whatever is missing. *)
Theorem audit_record_content env op s r s' :
  step env op s = (Ok r, s') →
  ∃ e, AuditLogs s' = AuditLogs s ++ [e]
    ∧ AuditLog.action e
      = match op with
        | Create _ => "Ticket Created"
        | AssignAgent _ _ _ => "Agent Assigned"
        | ChangePriority _ _ _ => "Priority Changed"
        | ResolveTicket _ _ _ => "Ticket Resolved"
        | CloseTicket _ _ => "Ticket Closed"
        | EscalateTicket _ _ _ => "Ticket Escalated"
        | ReopenTicket _ _ _ => "Ticket Reopened"
        end
    ∧ AuditLog.performedBy e
      = match op with
        | Create _ => "System"
        | AssignAgent _ _ remarks => JS.or_else remarks "System"
        | ChangePriority _ _ reason => JS.or_else reason "System"
        | ResolveTicket _ _ a | CloseTicket _ a | EscalateTicket _ _ a
        | ReopenTicket _ _ a => JS.or_else a "System"
        end.
Proof.
  assert (Hor : ∀ x, JS.or_else (Some (JS.or_else x "System")) "System"
                     = JS.or_else x "System").
  { intros [x|]; simpl; [|done]. by destruct (String.eqb_spec x "") as [->|Hx];
      simpl; [|destruct (String.eqb_spec x "")]. }
  destruct op; simpl;
    [ unfold create | unfold assignAgent | unfold changePriority
    | unfold resolveTicket | unfold closeTicket | unfold escalateTicket
    | unfold reopenTicket ];
    repeat case_match; intros [= <- <-];
    (eexists; split; [reflexivity|]; split; [done|]);
    first [ done | apply Hor ].
Qed.

Lemma audit_record_content_witness :
  let op := AssignAgent "tkt-0001" "agt-0001" (Some "Assigning L1 support agent") in
  let r := step Sample.env_2024 op Sample.opened in
  r = (Ok (Tickets r.2 !! "tkt-0001"), r.2)
  ∧ ∃ e, AuditLogs r.2 = AuditLogs Sample.opened ++ [e]
         ∧ AuditLog.performedBy e = "Assigning L1 support agent".
Proof.
  intros op r.
  assert (H : r = (Ok (Tickets r.2 !! "tkt-0001"), r.2)) by (vm_compute; reflexivity).
  split; [exact H|].
  destruct (audit_record_content _ op _ _ _ H) as (e & He & _ & Hp).
  exists e. split; [exact He|]. rewrite Hp. reflexivity.
Defined.

(** ** The agent's list *)

(** X25: getAgentTickets returns exactly the tickets of the store that are
    assigned to the agent and not CLOSED (RESOLVED ones included). They
    come ordered by the priority strings, least first, a ticket without
    priority before all others: CRITICAL before HIGH, HIGH before LOW and
    LOW before MEDIUM, never the other way round. *)
Theorem getAgentTickets_spec agentID s :
  (∀ t, t ∈ getAgentTickets agentID s
        ↔ (∃ k, Tickets s !! k = Some t)
          ∧ assignedTo_ID t = Some agentID ∧ status t ≠ "CLOSED")
  ∧ Sorted order_by (getAgentTickets agentID s)
  ∧ (∀ t1 t2, priority t1 = None → order_by t1 t2)
  ∧ (∀ t1 t2, priority t1 = Some "CRITICAL" → priority t2 = Some "HIGH" →
       order_by t1 t2 ∧ ¬ order_by t2 t1)
  ∧ (∀ t1 t2, priority t1 = Some "HIGH" → priority t2 = Some "LOW" →
       order_by t1 t2 ∧ ¬ order_by t2 t1)
  ∧ (∀ t1 t2, priority t1 = Some "LOW" → priority t2 = Some "MEDIUM" →
       order_by t1 t2 ∧ ¬ order_by t2 t1).
Proof.
  split_and!.
  - intros t. apply getAgentTickets_rows.
  - apply getAgentTickets_sorted.
  - intros t1 t2 H1. unfold order_by. rewrite H1. by destruct (priority t2).
  - intros t1 t2 H1 H2. unfold order_by. rewrite H1, H2. split; [done|]. by intros H.
  - intros t1 t2 H1 H2. unfold order_by. rewrite H1, H2. split; [done|]. by intros H.
  - intros t1 t2 H1 H2. unfold order_by. rewrite H1, H2. split; [done|]. by intros H.
Qed.
